(** * Regional band parameters, XTime and the websocket traffic handler

  A shallow embedding of the parts of the LoRaWAN stack that the
  specification's testable properties talk about:

  - [band]: the AS923 (RP002-1.0.2) and CN470-510 26 MHz type A
    (RP002-1.0.0) band tables, the RX1 data-rate derivation, the
    channel-mask codec and the band registry ([All], [Get], [GetLatest]);
  - [lbslns]: the XTime packing of a session id and a concentrator time;
  - [ws]: the websocket traffic handler [handleTraffic]: its set-up phase,
    the downlink branch of its writer goroutine and its inbound read loop,
    as functions from the environment's answers to a trace of effects;
    the connection-info handler and the HTTP error handler;
  - [events_grpc]: the name filter of an event stream ([processNames]) and
    the redaction of related events ([FindRelated]). *)

From Stdlib Require Import ZArith Lia Bool Ascii String.
From stdpp Require Import base option list strings gmap sorting.

Local Open Scope Z_scope.

(** ** Go values shared by the packages *)

(** A Go call either returns or panics (index out of range). *)
Inductive run (A : Type) : Type :=
| Returns (a : A)
| Panics.
Arguments Returns {A} a.
Arguments Panics {A}.

(** A Go [(value, error)] pair: the value when the error is [nil]. *)
Inductive result (E A : Type) : Type :=
| Ok (a : A)
| Err (e : E).
Arguments Ok {E A} a.
Arguments Err {E A} e.

(** Conversion of a signed integer to [int8]: the low eight bits, read as
  two's complement. Arithmetic on [int8] wraps the same way. *)
Definition int8 (x : Z) : Z := (x + 128) mod 256 - 128.

(** ** Package ttnpb: the enumerations the band package uses *)
Module ttnpb.

(** Modelled from the spec: the declaration of [ttnpb.DataRateIndex] is not
    part of the sources. The spec's glossary calls a data rate index "an
    ordinal selecting spreading factor/bandwidth from a band's table"; the
    band code compares it with the literals 5 and 7 and converts it to
    [int8], so [DATA_RATE_n] is the integer [n]. *)
Definition DataRateIndex := Z.
Definition DataRateOffset := Z.
Definition DATA_RATE_0 : DataRateIndex := 0.
Definition DATA_RATE_1 : DataRateIndex := 1.
Definition DATA_RATE_2 : DataRateIndex := 2.
Definition DATA_RATE_3 : DataRateIndex := 3.
Definition DATA_RATE_4 : DataRateIndex := 4.
Definition DATA_RATE_5 : DataRateIndex := 5.
Definition DATA_RATE_6 : DataRateIndex := 6.
Definition DATA_RATE_7 : DataRateIndex := 7.

(** Modelled from the spec: [ttnpb.PHYVersion] is declared outside the
    sources; the spec has the version as an enumeration. These are the
    versions that the band package names. *)
Inductive PHYVersion : Set :=
| TS001_V1_0
| TS001_V1_0_1
| RP001_V1_0_2
| RP001_V1_0_2_REV_B
| RP001_V1_0_3_REV_A
| RP001_V1_1_REV_A
| RP001_V1_1_REV_B
| RP002_V1_0_0
| RP002_V1_0_1
| RP002_V1_0_2.

Definition PHYVersion_to_nat (v : PHYVersion) : nat :=
  match v with
  | TS001_V1_0 => 0 | TS001_V1_0_1 => 1 | RP001_V1_0_2 => 2
  | RP001_V1_0_2_REV_B => 3 | RP001_V1_0_3_REV_A => 4
  | RP001_V1_1_REV_A => 5 | RP001_V1_1_REV_B => 6 | RP002_V1_0_0 => 7
  | RP002_V1_0_1 => 8 | RP002_V1_0_2 => 9
  end%nat.

Definition PHYVersion_of_nat (n : nat) : option PHYVersion :=
  match n with
  | 0 => Some TS001_V1_0 | 1 => Some TS001_V1_0_1 | 2 => Some RP001_V1_0_2
  | 3 => Some RP001_V1_0_2_REV_B | 4 => Some RP001_V1_0_3_REV_A
  | 5 => Some RP001_V1_1_REV_A | 6 => Some RP001_V1_1_REV_B
  | 7 => Some RP002_V1_0_0 | 8 => Some RP002_V1_0_1
  | 9 => Some RP002_V1_0_2 | _ => None
  end%nat.

#[global] Instance PHYVersion_eq_dec : EqDecision PHYVersion.
Proof. solve_decision. Defined.

#[global] Instance PHYVersion_countable : Countable PHYVersion.
Proof.
  apply (inj_countable PHYVersion_to_nat PHYVersion_of_nat).
  intros []; reflexivity.
Defined.

End ttnpb.

(** ** Package band *)
Module band.
Import ttnpb.

(** The errors of the package, with the attributes they carry. *)
Inductive error : Type :=
| errDataRateIndexTooHigh (max : Z)
| errDataRateOffsetTooHigh (max : Z)
| errBandNotFound (id : string) (version : PHYVersion).

(** [makeDwellTimeMaxMACPayloadSizeFunc noDwell dwell] and
    [makeConstMaxMACPayloadSizeFunc n], kept as data. *)
Inductive MaxMACPayloadSize : Set :=
| DwellTimeMaxMACPayloadSize (noDwellTimeSize dwellTimeSize : Z)
| ConstMaxMACPayloadSize (size : Z).

(** [makeLoRaDataRate sf bw f] and [makeFSKDataRate bitRate f]. *)
Inductive DataRate : Set :=
| LoRaDataRate (spreadingFactor bandwidth : Z) (maxSize : MaxMACPayloadSize)
| FSKDataRate (bitRate : Z) (maxSize : MaxMACPayloadSize).

(** The fields of [Band] that the properties below read. The two codec
    fields have the types of the codec below: a channel set is the vector of
    its per-channel enabled flags, a channel mask a list of 16-bit blocks. *)
Record Band : Type := {
  ID : string;
  MaxUplinkChannels : Z;
  MaxDownlinkChannels : Z;
  DataRates : gmap Z DataRate;
  MaxADRDataRateIndex : DataRateIndex;
  Rx1DataRate :
    DataRateIndex -> DataRateOffset -> bool -> run (result error DataRateIndex);
  GenerateChMasks : list bool -> list Z;
  ParseChMask : list Z -> list bool
}.

(** Smallest and largest index of the band's [DataRates] table. *)
Definition minDataRateIndex (b : Band) : Z :=
  match elements (dom (DataRates b)) with
  | [] => 0
  | k :: ks => foldr Z.min k ks
  end.

Definition maxDataRateIndex (b : Band) : Z :=
  match elements (dom (DataRates b)) with
  | [] => 0
  | k :: ks => foldr Z.max k ks
  end.

(** *** The channel-mask codec *)

(** Modelled from the spec: [generateChMask16], [parseChMask16],
    [generateChMask48] and [parseChMask48] are not part of the sources. The
    spec describes the codec as generating and parsing "a compact bitmask
    representation of up to N channels (N = 16, 48, ...)", where "48-channel
    bands split into three 16-bit blocks with defined ordering". Block [k]
    covers channels [16k .. 16k+15]; bit [i] of a block is set when channel
    [16k+i] is enabled. *)
Definition mask_of_bools (chs : list bool) : Z :=
  foldr (fun b acc => 2 * acc + Z.b2z b) 0 chs.

Definition bools_of_mask (n : nat) (mask : Z) : list bool :=
  (fun i => Z.testbit mask (Z.of_nat i)) <$> seq 0 n.

Fixpoint generateChMaskBlocks (blocks : nat) (chs : list bool) : list Z :=
  match blocks with
  | O => []
  | S k => mask_of_bools (take 16 chs) :: generateChMaskBlocks k (drop 16 chs)
  end.

Definition parseChMaskBlocks (masks : list Z) : list bool :=
  masks ≫= bools_of_mask 16.

Definition generateChMask16 : list bool -> list Z := generateChMaskBlocks 1.
Definition parseChMask16 : list Z -> list bool := parseChMaskBlocks.
Definition generateChMask48 : list bool -> list Z := generateChMaskBlocks 3.
Definition parseChMask48 : list Z -> list bool := parseChMaskBlocks.

(** *** AS923, RP002-1.0.2 *)

(** Modelled from the spec: the region identifiers and the AS923 group
    offsets are declared outside the sources; an identifier is the string of
    its constant's name (the spec's example of an undefined region is
    ["XX_000_000"]). *)
Definition AS_923 : string := "AS_923".
Definition AS_923_2 : string := "AS_923_2".
Definition AS_923_3 : string := "AS_923_3".
Definition CN_470_510_26_A : string := "CN_470_510_26_A".

Inductive as923GroupOffset : Set :=
| as923Group1Offset
| as923Group2Offset
| as923Group3Offset.

Definition as923RP2102_Rx1DataRate
    (idx : DataRateIndex) (offset : DataRateOffset) (dwellTime : bool)
    : run (result error DataRateIndex) :=
  let so := int8 offset in
  let so := if 5 <? so then int8 (5 - so) else so in
  let si := int8 (int8 idx - so) in
  let minDR := if dwellTime then DATA_RATE_2 else DATA_RATE_0 in
  if si <=? int8 minDR then Returns (Ok minDR)
  else if 7 <=? si then Returns (Ok DATA_RATE_7)
  else Returns (Ok si).

Definition as923RP2102Band (id : string) (offset : as923GroupOffset) : Band := {|
  ID := id;
  MaxUplinkChannels := 16;
  MaxDownlinkChannels := 16;
  DataRates := {[
    DATA_RATE_0 := LoRaDataRate 12 125000 (DwellTimeMaxMACPayloadSize 59 0);
    DATA_RATE_1 := LoRaDataRate 11 125000 (DwellTimeMaxMACPayloadSize 59 0);
    DATA_RATE_2 := LoRaDataRate 10 125000 (DwellTimeMaxMACPayloadSize 123 19);
    DATA_RATE_3 := LoRaDataRate 9 125000 (DwellTimeMaxMACPayloadSize 123 61);
    DATA_RATE_4 := LoRaDataRate 8 125000 (DwellTimeMaxMACPayloadSize 230 133);
    DATA_RATE_5 := LoRaDataRate 7 125000 (DwellTimeMaxMACPayloadSize 230 250);
    DATA_RATE_6 := LoRaDataRate 7 250000 (DwellTimeMaxMACPayloadSize 230 250);
    DATA_RATE_7 := FSKDataRate 50000 (DwellTimeMaxMACPayloadSize 230 250)
  ]};
  MaxADRDataRateIndex := DATA_RATE_5;
  Rx1DataRate := as923RP2102_Rx1DataRate;
  GenerateChMasks := generateChMask16;
  ParseChMask := parseChMask16
|}.

Definition AS_923_RP2_v1_0_2 : Band := as923RP2102Band AS_923 as923Group1Offset.
Definition AS_923_2_RP2_v1_0_2 : Band := as923RP2102Band AS_923_2 as923Group2Offset.
Definition AS_923_3_RP2_v1_0_2 : Band := as923RP2102Band AS_923_3 as923Group3Offset.

(** *** CN470-510, 26 MHz antenna, type A, RP002-1.0.0 *)

(** Modelled from the spec: [cn470510DownlinkDRTable] is declared outside
    the sources (the band file indexes it as a 6 by 6 array, after checking
    both indices against 5). Following the spec's RX1 rule, the entry at
    [idx][offset] is the uplink index minus the offset, "clamped to the
    band's minimum data rate". *)
Definition cn470510DownlinkDRTable : list (list DataRateIndex) :=
  (fun idx => (fun offset => Z.max DATA_RATE_0 (idx - offset)) <$> seqZ 0 6)
    <$> seqZ 0 6.

(** [a[i]] on a Go array: a panic when [i] is out of range. *)
Definition index {A : Type} (a : list A) (i : Z) : run A :=
  if i <? 0 then Panics
  else match a !! Z.to_nat i with
       | Some x => Returns x
       | None => Panics
       end.

Definition cn47051026A_Rx1DataRate
    (idx : DataRateIndex) (offset : DataRateOffset) (_ : bool)
    : run (result error DataRateIndex) :=
  if DATA_RATE_5 <? idx then Returns (Err (errDataRateIndexTooHigh 5))
  else if 5 <? offset then Returns (Err (errDataRateOffsetTooHigh 5))
  else
    match index cn470510DownlinkDRTable idx with
    | Panics => Panics
    | Returns row =>
        match index row offset with
        | Panics => Panics
        | Returns dr => Returns (Ok dr)
        end
    end.

Definition CN_470_510_26_A_RP2_v1_0_0 : Band := {|
  ID := CN_470_510_26_A;
  MaxUplinkChannels := 48;
  MaxDownlinkChannels := 24;
  DataRates := {[
    DATA_RATE_0 := LoRaDataRate 12 125000 (ConstMaxMACPayloadSize 59);
    DATA_RATE_1 := LoRaDataRate 11 125000 (ConstMaxMACPayloadSize 59);
    DATA_RATE_2 := LoRaDataRate 10 125000 (ConstMaxMACPayloadSize 59);
    DATA_RATE_3 := LoRaDataRate 9 125000 (ConstMaxMACPayloadSize 123);
    DATA_RATE_4 := LoRaDataRate 8 125000 (ConstMaxMACPayloadSize 230);
    DATA_RATE_5 := LoRaDataRate 7 125000 (ConstMaxMACPayloadSize 230)
  ]};
  MaxADRDataRateIndex := DATA_RATE_5;
  Rx1DataRate := cn47051026A_Rx1DataRate;
  GenerateChMasks := generateChMask48;
  ParseChMask := parseChMask48
|}.

(** The band tables defined in these two files. *)
Definition tables : list Band :=
  [AS_923_RP2_v1_0_2; AS_923_2_RP2_v1_0_2; AS_923_3_RP2_v1_0_2;
   CN_470_510_26_A_RP2_v1_0_0].


(** *** The RX1 rule in the spec's words *)

(** The effective offset: the offset itself up to 5, [5 - offset] above. *)
Definition spec_effective_offset (offset : Z) : Z :=
  if offset <=? 5 then offset else 5 - offset.

Definition spec_clamp (lo hi x : Z) : Z := Z.max lo (Z.min hi x).

(** The lower clamp: DATA_RATE_2 under dwell time, DATA_RATE_0 otherwise. *)
Definition spec_min_data_rate (dwellTime : bool) : Z :=
  if dwellTime then DATA_RATE_2 else DATA_RATE_0.

(** *** The band registry *)

(** Modelled from the spec: the remaining region identifiers, declared
    outside the sources like the ones above. *)
Definition AU_915_928 : string := "AU_915_928".
Definition CN_470_510 : string := "CN_470_510".
Definition CN_470_510_20_A : string := "CN_470_510_20_A".
Definition CN_470_510_20_B : string := "CN_470_510_20_B".
Definition CN_470_510_26_B : string := "CN_470_510_26_B".
Definition CN_779_787 : string := "CN_779_787".
Definition EU_433 : string := "EU_433".
Definition EU_863_870 : string := "EU_863_870".
Definition IN_865_867 : string := "IN_865_867".
Definition ISM_2400 : string := "ISM_2400".
Definition KR_920_923 : string := "KR_920_923".
Definition RU_864_870 : string := "RU_864_870".
Definition US_902_928 : string := "US_902_928".

(** The package-level band variables that [All] refers to. Most of them are
    defined in files of their own; the registry only needs their identity. *)
Module var.
Inductive Band : Set :=
| AS_923_RP1_v1_0_2
| AS_923_RP1_v1_0_2_RevB
| AS_923_RP1_v1_0_3_RevA
| AS_923_RP1_v1_1_RevA
| AS_923_RP1_v1_1_RevB
| AS_923_RP2_v1_0_0
| AU_915_928_TS1_v1_0_1
| AU_915_928_RP1_v1_0_2
| AU_915_928_RP1_v1_0_2_RevB
| AU_915_928_RP1_v1_0_3_RevA
| AU_915_928_RP1_v1_1_RevA
| AU_915_928_RP1_v1_1_RevB
| AU_915_928_RP2_v1_0_0
| CN_470_510_TS1_v1_0_1
| CN_470_510_RP1_v1_0_2
| CN_470_510_RP1_v1_0_2_RevB
| CN_470_510_RP1_v1_0_3_RevA
| CN_470_510_RP1_v1_1_RevA
| CN_470_510_RP1_v1_1_RevB
| CN_470_510_20_A_RP2_v1_0_0
| CN_470_510_20_B_RP2_v1_0_0
| CN_470_510_26_A_RP2_v1_0_0
| CN_470_510_26_B_RP2_v1_0_0
| CN_779_787_RP1_V1_0
| CN_779_787_RP1_V1_0_1
| CN_779_787_RP1_V1_0_2
| CN_779_787_RP1_V1_0_2_RevB
| CN_779_787_RP1_V1_0_3_RevA
| CN_779_787_RP1_V1_1_RevA
| CN_779_787_RP1_V1_1_RevB
| CN_779_787_RP2_V1_0_0
| EU_433_TS1_V1_0
| EU_433_TS1_V1_0_1
| EU_433_RP1_V1_0_2
| EU_433_RP1_V1_0_2_Rev_B
| EU_433_RP1_V1_0_3_Rev_A
| EU_433_RP1_V1_1_Rev_A
| EU_433_RP1_V1_1_Rev_B
| EU_433_RP2_V1_0_0
| EU_863_870_TS1_V1_0
| EU_863_870_TS1_V1_0_1
| EU_863_870_RP1_V1_0_2
| EU_863_870_RP1_V1_0_2_Rev_B
| EU_863_870_RP1_V1_0_3_Rev_A
| EU_863_870_RP1_V1_1_Rev_A
| EU_863_870_RP1_V1_1_Rev_B
| EU_863_870_RP2_V1_0_0
| IN_865_867_RP1_V1_0_2_Rev_B
| IN_865_867_RP1_V1_0_3_Rev_A
| IN_865_867_RP1_V1_1_Rev_A
| IN_865_867_RP1_V1_1_Rev_B
| IN_865_867_RP2_V1_0_0
| ISM_2400_Universal
| KR_920_923_RP1_V1_0_2
| KR_920_923_RP1_V1_0_2_Rev_B
| KR_920_923_RP1_V1_0_3_Rev_A
| KR_920_923_RP1_V1_1_Rev_A
| KR_920_923_RP1_V1_1_Rev_B
| KR_920_923_RP2_V1_0_0
| RU_864_870_RP1_V1_0_3_Rev_A
| RU_864_870_RP1_V1_1_Rev_A
| RU_864_870_RP1_V1_1_Rev_B
| RU_864_870_RP2_V1_0_0
| US_902_928_TS1_V1_0
| US_902_928_TS1_V1_0_1
| US_902_928_RP1_V1_0_2
| US_902_928_RP1_V1_0_2_Rev_B
| US_902_928_RP1_V1_0_3_Rev_A
| US_902_928_RP1_V1_1_Rev_A
| US_902_928_RP1_V1_1_Rev_B
| US_902_928_RP2_V1_0_0.

#[global] Instance Band_eq_dec : EqDecision Band.
Proof. solve_decision. Defined.
End var.

(** [All] contains all the bands available. *)
Definition All : gmap string (gmap PHYVersion var.Band) := list_to_map [
  (AS_923, {[
    RP001_V1_0_2 := var.AS_923_RP1_v1_0_2;
    RP001_V1_0_2_REV_B := var.AS_923_RP1_v1_0_2_RevB;
    RP001_V1_0_3_REV_A := var.AS_923_RP1_v1_0_3_RevA;
    RP001_V1_1_REV_A := var.AS_923_RP1_v1_1_RevA;
    RP001_V1_1_REV_B := var.AS_923_RP1_v1_1_RevB;
    RP002_V1_0_0 := var.AS_923_RP2_v1_0_0
  ]});
  (AU_915_928, {[
    TS001_V1_0_1 := var.AU_915_928_TS1_v1_0_1;
    RP001_V1_0_2 := var.AU_915_928_RP1_v1_0_2;
    RP001_V1_0_2_REV_B := var.AU_915_928_RP1_v1_0_2_RevB;
    RP001_V1_0_3_REV_A := var.AU_915_928_RP1_v1_0_3_RevA;
    RP001_V1_1_REV_A := var.AU_915_928_RP1_v1_1_RevA;
    RP001_V1_1_REV_B := var.AU_915_928_RP1_v1_1_RevB;
    RP002_V1_0_0 := var.AU_915_928_RP2_v1_0_0
  ]});
  (CN_470_510, {[
    TS001_V1_0_1 := var.CN_470_510_TS1_v1_0_1;
    RP001_V1_0_2 := var.CN_470_510_RP1_v1_0_2;
    RP001_V1_0_2_REV_B := var.CN_470_510_RP1_v1_0_2_RevB;
    RP001_V1_0_3_REV_A := var.CN_470_510_RP1_v1_0_3_RevA;
    RP001_V1_1_REV_A := var.CN_470_510_RP1_v1_1_RevA;
    RP001_V1_1_REV_B := var.CN_470_510_RP1_v1_1_RevB
  ]});
  (CN_470_510_20_A, {[
    RP002_V1_0_0 := var.CN_470_510_20_A_RP2_v1_0_0
  ]});
  (CN_470_510_20_B, {[
    RP002_V1_0_0 := var.CN_470_510_20_B_RP2_v1_0_0
  ]});
  (CN_470_510_26_A, {[
    RP002_V1_0_0 := var.CN_470_510_26_A_RP2_v1_0_0
  ]});
  (CN_470_510_26_B, {[
    RP002_V1_0_0 := var.CN_470_510_26_B_RP2_v1_0_0
  ]});
  (CN_779_787, {[
    TS001_V1_0 := var.CN_779_787_RP1_V1_0;
    TS001_V1_0_1 := var.CN_779_787_RP1_V1_0_1;
    RP001_V1_0_2 := var.CN_779_787_RP1_V1_0_2;
    RP001_V1_0_2_REV_B := var.CN_779_787_RP1_V1_0_2_RevB;
    RP001_V1_0_3_REV_A := var.CN_779_787_RP1_V1_0_3_RevA;
    RP001_V1_1_REV_A := var.CN_779_787_RP1_V1_1_RevA;
    RP001_V1_1_REV_B := var.CN_779_787_RP1_V1_1_RevB;
    RP002_V1_0_0 := var.CN_779_787_RP2_V1_0_0
  ]});
  (EU_433, {[
    TS001_V1_0 := var.EU_433_TS1_V1_0;
    TS001_V1_0_1 := var.EU_433_TS1_V1_0_1;
    RP001_V1_0_2 := var.EU_433_RP1_V1_0_2;
    RP001_V1_0_2_REV_B := var.EU_433_RP1_V1_0_2_Rev_B;
    RP001_V1_0_3_REV_A := var.EU_433_RP1_V1_0_3_Rev_A;
    RP001_V1_1_REV_A := var.EU_433_RP1_V1_1_Rev_A;
    RP001_V1_1_REV_B := var.EU_433_RP1_V1_1_Rev_B;
    RP002_V1_0_0 := var.EU_433_RP2_V1_0_0
  ]});
  (EU_863_870, {[
    TS001_V1_0 := var.EU_863_870_TS1_V1_0;
    TS001_V1_0_1 := var.EU_863_870_TS1_V1_0_1;
    RP001_V1_0_2 := var.EU_863_870_RP1_V1_0_2;
    RP001_V1_0_2_REV_B := var.EU_863_870_RP1_V1_0_2_Rev_B;
    RP001_V1_0_3_REV_A := var.EU_863_870_RP1_V1_0_3_Rev_A;
    RP001_V1_1_REV_A := var.EU_863_870_RP1_V1_1_Rev_A;
    RP001_V1_1_REV_B := var.EU_863_870_RP1_V1_1_Rev_B;
    RP002_V1_0_0 := var.EU_863_870_RP2_V1_0_0
  ]});
  (IN_865_867, {[
    RP001_V1_0_2_REV_B := var.IN_865_867_RP1_V1_0_2_Rev_B;
    RP001_V1_0_3_REV_A := var.IN_865_867_RP1_V1_0_3_Rev_A;
    RP001_V1_1_REV_A := var.IN_865_867_RP1_V1_1_Rev_A;
    RP001_V1_1_REV_B := var.IN_865_867_RP1_V1_1_Rev_B;
    RP002_V1_0_0 := var.IN_865_867_RP2_V1_0_0
  ]});
  (ISM_2400, {[
    TS001_V1_0 := var.ISM_2400_Universal;
    TS001_V1_0_1 := var.ISM_2400_Universal;
    RP001_V1_0_2 := var.ISM_2400_Universal;
    RP001_V1_0_2_REV_B := var.ISM_2400_Universal;
    RP001_V1_0_3_REV_A := var.ISM_2400_Universal;
    RP001_V1_1_REV_A := var.ISM_2400_Universal;
    RP001_V1_1_REV_B := var.ISM_2400_Universal;
    RP002_V1_0_0 := var.ISM_2400_Universal
  ]});
  (KR_920_923, {[
    RP001_V1_0_2 := var.KR_920_923_RP1_V1_0_2;
    RP001_V1_0_2_REV_B := var.KR_920_923_RP1_V1_0_2_Rev_B;
    RP001_V1_0_3_REV_A := var.KR_920_923_RP1_V1_0_3_Rev_A;
    RP001_V1_1_REV_A := var.KR_920_923_RP1_V1_1_Rev_A;
    RP001_V1_1_REV_B := var.KR_920_923_RP1_V1_1_Rev_B;
    RP002_V1_0_0 := var.KR_920_923_RP2_V1_0_0
  ]});
  (RU_864_870, {[
    RP001_V1_0_3_REV_A := var.RU_864_870_RP1_V1_0_3_Rev_A;
    RP001_V1_1_REV_A := var.RU_864_870_RP1_V1_1_Rev_A;
    RP001_V1_1_REV_B := var.RU_864_870_RP1_V1_1_Rev_B;
    RP002_V1_0_0 := var.RU_864_870_RP2_V1_0_0
  ]});
  (US_902_928, {[
    TS001_V1_0 := var.US_902_928_TS1_V1_0;
    TS001_V1_0_1 := var.US_902_928_TS1_V1_0_1;
    RP001_V1_0_2 := var.US_902_928_RP1_V1_0_2;
    RP001_V1_0_2_REV_B := var.US_902_928_RP1_V1_0_2_Rev_B;
    RP001_V1_0_3_REV_A := var.US_902_928_RP1_V1_0_3_Rev_A;
    RP001_V1_1_REV_A := var.US_902_928_RP1_V1_1_Rev_A;
    RP001_V1_1_REV_B := var.US_902_928_RP1_V1_1_Rev_B;
    RP002_V1_0_0 := var.US_902_928_RP2_V1_0_0
  ]})
].

(** [Get] returns the band if it was found, and returns an error otherwise.
    The package variable [All] that the function reads is passed as [all]. *)
Definition Get (all : gmap string (gmap PHYVersion var.Band))
    (id : string) (version : PHYVersion) : result error var.Band :=
  match all !! id with
  | None => Err (errBandNotFound id version)
  | Some versions =>
      match versions !! version with
      | None => Err (errBandNotFound id version)
      | Some band => Ok band
      end
  end.

(** The table registered for a pair of region and version, if any. *)
Definition registered (all : gmap string (gmap PHYVersion var.Band))
    (id : string) (version : PHYVersion) : option var.Band :=
  all !! id ≫= fun versions => versions !! version.

Definition latestSupportedVersion : PHYVersion := RP001_V1_1_REV_B.

(** [GetLatest] returns the latest version of the band if it was found, and
    returns an error otherwise. *)
Definition GetLatest (all : gmap string (gmap PHYVersion var.Band))
    (id : string) : result error var.Band :=
  Get all id latestSupportedVersion.

End band.

(** ** Package lbslns: XTime *)
Module lbslns.

(** Modelled from the spec: the XTime functions are not part of the sources
    (only [TestTransferTime], which calls [SessionIDFromXTime] and
    [ConcentratorTimeFromXTime], is). The spec describes XTime as "a compact
    wire time value [that] encodes sessionID and concentratorTime packed into
    a single counter", where "ids and time share disjoint bit ranges". The
    concentrator time (in microseconds) takes the low [timeBits] bits and the
    session id the bits from [idShift] upwards; the spec fixes neither width,
    so both stay parameters, with [timeBits <= idShift]. *)
Section XTime.
Variables idShift timeBits : Z.

Definition EncodeXTime (sessionID concentratorTime : Z) : Z :=
  Z.lor (Z.shiftl sessionID idShift) (Z.land concentratorTime (Z.ones timeBits)).

Definition SessionIDFromXTime (xTime : Z) : Z := Z.shiftr xTime idShift.

Definition ConcentratorTimeFromXTime (xTime : Z) : Z :=
  Z.land xTime (Z.ones timeBits).

Definition DecodeXTime (xTime : Z) : Z * Z :=
  (SessionIDFromXTime xTime, ConcentratorTimeFromXTime xTime).

End XTime.
End lbslns.

(** ** Package ws: the websocket frontend *)
Module ws.

Inductive error : Type :=
| errGatewayID (id : string)
| errNoAuthProvided (uid : string)
| collaborator (msg : string).
(** [collaborator] stands for the errors that the server, the upgrader, the
    websocket, the formatter and the rate limiter hand back. *)

(** *** The gateway id of the request path *)

Definition in_range (lo hi : string) (c : ascii) : bool :=
  match lo, hi with
  | String l EmptyString, String h EmptyString =>
      (nat_of_ascii l <=? nat_of_ascii c)%nat && (nat_of_ascii c <=? nat_of_ascii h)%nat
  | _, _ => false
  end.

(** The character class [[a-f0-9A-F]]. *)
Definition hex_class (c : ascii) : bool :=
  in_range "a" "f" c || in_range "0" "9" c || in_range "A" "F" c.

Fixpoint all_chars (p : ascii -> bool) (s : string) : bool :=
  match s with
  | EmptyString => true
  | String c s' => p c && all_chars p s'
  end.

(** [strip_prefix p s] is the rest of [s] after its prefix [p]. *)
Fixpoint strip_prefix (p s : string) : option string :=
  match p, s with
  | EmptyString, _ => Some s
  | String a p', String b s' =>
      if Ascii.eqb a b then strip_prefix p' s' else None
  | String _ _, EmptyString => None
  end.

(** [euiHexPattern.FindStringSubmatch id] for the pattern
    [^eui-([a-f0-9A-F]{16})$]: the whole match and the group, or nothing.
    Both anchors match at the ends of the text only. *)
Definition euiHexPattern_FindStringSubmatch (id : string) : list string :=
  match strip_prefix "eui-" id with
  | Some group =>
      if (String.length group =? 16)%nat && all_chars hex_class group
      then [id; group]
      else []
  | None => []
  end.

(** The pattern in the spec's words: [eui-] and 16 hexadecimal digits. *)
Definition spec_hex_digits : list ascii :=
  list_ascii_of_string "0123456789abcdefABCDEF".

Definition spec_matches_eui (id : string) : Prop :=
  exists digits,
    id = ("eui-" ++ digits)%string
    /\ String.length digits = 16%nat
    /\ forall c, c ∈ list_ascii_of_string digits -> c ∈ spec_hex_digits.

(** [encoding/hex]: the value of one hexadecimal digit. *)
Definition fromHexChar (c : ascii) : option Z :=
  let n := Z.of_nat (nat_of_ascii c) in
  if in_range "0" "9" c then Some (n - 48)
  else if in_range "a" "f" c then Some (n - 97 + 10)
  else if in_range "A" "F" c then Some (n - 65 + 10)
  else None.

(** [hex.DecodeString]: fails on a digit that is not hexadecimal and on an
    odd length. *)
Fixpoint hex_DecodeString (s : string) : option (list Z) :=
  match s with
  | EmptyString => Some []
  | String _ EmptyString => None
  | String a (String b rest) =>
      match fromHexChar a, fromHexChar b, hex_DecodeString rest with
      | Some x, Some y, Some bytes => Some ((16 * x + y) :: bytes)
      | _, _, _ => None
      end
  end.

(** *** Effects *)

Record GatewayIdentifiers : Type := {
  GatewayId : string;
  Eui : list Z
}.

Record DownlinkMessage : Type := {
  RawPayload : string;
  Timestamp : Z;
  CorrelationIds : list string
}.

Inductive level : Set := Debug | Info | Warn.
Inductive messageType : Set := TextMessage | PingMessage | PongMessage.

(** What the handler does to its collaborators, in the order it does it.
    Each call that can fail records the answer it got. *)
Inductive effect : Type :=
| FillGatewayContext (eui : list Z)
| Connect (ids : GatewayIdentifiers)
| Upgrade
| Spawn
| Disconnect (err : error)
| Close
| Log (l : level) (msg : string)
| Require (answer : option error)
| ReadMessage (answer : result error string)
| HandleUp (data : string)
| TimeFromTimestampTime (timestamp : Z)
| FromDownlink (down : DownlinkMessage) (concentratorTime : Z)
| TransferTime
| WriteMessage (t : messageType) (data : string).

(** The error that an effect hands to the connection, and through it to the
    rest of the network server: [conn.Disconnect(err)] is the only call of
    the handler that passes one on; a log line stays in the log. *)
Definition reports (e : effect) : option error :=
  match e with
  | Disconnect err => Some err
  | _ => None
  end.

(** How far a loop got on the answers it was given. *)
Inductive outcome : Type :=
| Running
| Returned (err : option error).

(** *** The inbound read loop *)

(** A control frame that reaches the websocket while [ws.ReadMessage] waits
    for a message; a ping comes with the answer to the write of the pong. *)
Inductive controlFrame : Type :=
| PingFrame (pong : option error)
| PongFrame.

(** The environment's answers for one turn of the read loop; [control] are
    the control frames that arrive before the message of the turn. *)
Record turn : Type := {
  require : option error;
  control : list controlFrame;
  read : result error string;
  handleUp : result error (option string);
  write : option error
}.

(** The ping handler and the pong handler that [handleTraffic] installs on
    the websocket, which calls them from within [ReadMessage], frame by
    frame; the error of a ping handler ends the read. *)
Fixpoint controlFrames (frames : list controlFrame) : list effect * option error :=
  match frames with
  | [] => ([], None)
  | PingFrame None :: rest =>
      let '(tr, err) := controlFrames rest in
      (Log Debug "Received ping from gateway, send pong"
         :: WriteMessage PongMessage "" :: tr, err)
  | PingFrame (Some err) :: _ =>
      ([Log Debug "Received ping from gateway, send pong";
        WriteMessage PongMessage ""; Log Warn "Failed to send pong"], Some err)
  | PongFrame :: rest =>
      let '(tr, err) := controlFrames rest in
      (Log Debug "Received pong from gateway" :: tr, err)
  end.

(** [ws.ReadMessage]: the handling of the control frames that arrive first,
    then the return of the call, with the error of a ping handler or with
    what the websocket had to give. *)
Definition readMessage (t : turn) : list effect * result error string :=
  match controlFrames (control t) with
  | (tr, Some err) => (tr ++ [ReadMessage (Err err)], Err err)
  | (tr, None) => (tr ++ [ReadMessage (read t)], read t)
  end.

(** One turn of the [for] loop: its effects, and the error it returns with,
    if it does. *)
Definition iteration (t : turn) : list effect * option error :=
  match require t with
  | Some err =>
      ([Require (Some err); Log Warn "Terminate connection"; Disconnect err],
       Some err)
  | None =>
      let '(rd, answer) := readMessage t in
      match answer with
      | Err err =>
          (Require None :: rd ++ [Log Debug "Failed to read message"], Some err)
      | Ok data =>
          match handleUp t with
          | Err err => (Require None :: rd ++ [HandleUp data], Some err)
          | Ok None => (Require None :: rd ++ [HandleUp data], None)
          | Ok (Some downstream) =>
              match write t with
              | Some err =>
                  (Require None :: rd
                     ++ [HandleUp data; Log Info "Send downstream message";
                         WriteMessage TextMessage downstream;
                         Log Warn "Failed to send message downstream";
                         Disconnect err],
                   Some err)
              | None =>
                  (Require None :: rd
                     ++ [HandleUp data; Log Info "Send downstream message";
                         WriteMessage TextMessage downstream],
                   None)
              end
          end
      end
  end.

Fixpoint readLoop (turns : list turn) : list effect * outcome :=
  match turns with
  | [] => ([], Running)
  | t :: rest =>
      match iteration t with
      | (tr, Some err) => (tr, Returned (Some err))
      | (tr, None) =>
          let '(tr', out) := readLoop rest in
          (tr ++ tr', out)
      end
  end.

(** The effects of the ping and pong handlers. *)
Definition control_effect (e : effect) : bool :=
  match e with
  | Log Debug msg =>
      String.eqb msg "Received ping from gateway, send pong"
      || String.eqb msg "Received pong from gateway"
  | Log Warn msg => String.eqb msg "Failed to send pong"
  | WriteMessage PongMessage _ => true
  | _ => false
  end.

(** Position [i] of a trace lies behind a rate-limit check that passed, in
    the same turn of the loop: nothing but the handling of control frames
    lies between that check and [i]. *)
Definition checked (tr : list effect) (i : nat) : Prop :=
  exists j,
    (j < i)%nat /\ tr !! j = Some (Require None)
    /\ forall k e, (j < k < i)%nat -> tr !! k = Some e -> control_effect e = true.

(** A sample run of the read loop: an uplink that is answered downstream,
    then a rate-limit check that fails. *)
Definition two_turns : list turn :=
  [ {| require := None; control := []; read := Ok "up";
       handleUp := Ok (Some "down"); write := None |};
    {| require := Some (collaborator "rate limited"); control := [];
       read := Ok "late"; handleUp := Ok None; write := None |} ].

(** A sample run with control frames: a ping and a pong before an uplink,
    then a ping whose pong cannot be written. *)
Definition ping_turns : list turn :=
  [ {| require := None; control := [PingFrame None; PongFrame];
       read := Ok "up"; handleUp := Ok None; write := None |};
    {| require := None;
       control := [PingFrame (Some (collaborator "broken pipe"))];
       read := Ok "late"; handleUp := Ok None; write := None |} ].

(** *** The writer goroutine *)

(** What the goroutine's [select] picked, with the answers to the calls of
    that branch. *)
Inductive selected : Type :=
| ContextDone
| PingTick (write : option error)
| TimeSyncTick (transfer : result error (option string)) (write : option error)
| Down (down : DownlinkMessage) (concentratorTime : option Z)
       (dnmsg : result error string) (write : option error).

(** The branch [case down := <-conn.Down()]: the effects of handling one
    queued downlink, and the error the goroutine stops with, if any. *)
Definition handleDown (down : DownlinkMessage) (concentratorTime : option Z)
    (dnmsg : result error string) (write : option error)
    : list effect * option error :=
  match concentratorTime with
  | None =>
      ([TimeFromTimestampTime (Timestamp down);
        Log Warn "No clock synchronization"], None)
  | Some t =>
      match dnmsg with
      | Err err =>
          ([TimeFromTimestampTime (Timestamp down); FromDownlink down t;
            Log Warn "Failed to marshal downlink message"], None)
      | Ok msg =>
          match write with
          | Some err =>
              ([TimeFromTimestampTime (Timestamp down); FromDownlink down t;
                WriteMessage TextMessage msg;
                Log Warn "Failed to send downlink message";
                Disconnect err], Some err)
          | None =>
              ([TimeFromTimestampTime (Timestamp down); FromDownlink down t;
                WriteMessage TextMessage msg], None)
          end
      end
  end.

Fixpoint writer (picks : list selected) : list effect * outcome :=
  match picks with
  | [] => ([], Running)
  | ContextDone :: _ => ([Close], Returned None)
  | PingTick w :: rest =>
      match w with
      | Some err =>
          ([WriteMessage PingMessage ""; Log Warn "Failed to send ping message";
            Disconnect err; Close], Returned None)
      | None =>
          let '(tr, out) := writer rest in
          (WriteMessage PingMessage "" :: tr, out)
      end
  | TimeSyncTick transfer w :: rest =>
      match transfer with
      | Err err =>
          ([TransferTime; Log Warn "Failed to generate time transfer";
            Disconnect err; Close], Returned None)
      | Ok None =>
          let '(tr, out) := writer rest in (TransferTime :: tr, out)
      | Ok (Some b) =>
          match w with
          | Some err =>
              ([TransferTime; WriteMessage TextMessage b;
                Log Warn "Failed to transfer time"; Disconnect err; Close],
               Returned None)
          | None =>
              let '(tr, out) := writer rest in
              (TransferTime :: WriteMessage TextMessage b :: tr, out)
          end
      end
  | Down down t dnmsg w :: rest =>
      match handleDown down t dnmsg w with
      | (tr, Some _) => (tr ++ [Close], Returned None)
      | (tr, None) =>
          let '(tr', out) := writer rest in (tr ++ tr', out)
      end
  end.

(** *** handleTraffic *)

(** The request and the answers of the collaborators during set-up. *)
Record request : Type := {
  id : string;
  auth : string;
  AllowUnauthenticated : bool;
  fillGatewayContext : result error GatewayIdentifiers;
  connect : option error;
  upgrade : option error;
  turns : list turn
}.

(** [unique.ID ctx ids], for an identifier without tenant. *)
Definition unique_ID (ids : GatewayIdentifiers) : string := GatewayId ids.

(** [handleTraffic] up to and including its read loop. Contexts, loggers
    and the session placed in the request context are values local to the
    request; the trace lists the calls that reach the server, the upgrader,
    the connection and the websocket. Once the websocket is up, the deferred
    calls disconnect with the loop's error, clear it and close the socket. *)
Definition handleTraffic (r : request) : list effect * outcome :=
  let str := euiHexPattern_FindStringSubmatch (id r) in
  match str with
  | [_; group] =>
      match hex_DecodeString group with
      | None => ([], Returned (Some (errGatewayID (id r))))
      | Some hexValue =>
          match fillGatewayContext r with
          | Err err => ([FillGatewayContext hexValue], Returned (Some err))
          | Ok ids =>
              let uid := unique_ID ids in
              if String.eqb (auth r) "" && negb (AllowUnauthenticated r)
              then ([FillGatewayContext hexValue],
                    Returned (Some (errNoAuthProvided uid)))
              else
                match connect r with
                | Some err =>
                    ([FillGatewayContext hexValue; Connect ids;
                      Log Warn "Failed to connect"], Returned (Some err))
                | None =>
                    match upgrade r with
                    | Some err =>
                        ([FillGatewayContext hexValue; Connect ids; Upgrade;
                          Log Debug "Failed to upgrade request to websocket connection";
                          Disconnect err], Returned (Some err))
                    | None =>
                        match readLoop (turns r) with
                        | (tr, Returned (Some err)) =>
                            ([FillGatewayContext hexValue; Connect ids; Upgrade; Spawn]
                               ++ tr ++ [Disconnect err; Close],
                             Returned None)
                        | (tr, out) =>
                            ([FillGatewayContext hexValue; Connect ids; Upgrade; Spawn]
                               ++ tr, out)
                        end
                    end
                end
          end
      end
  | _ => ([], Returned (Some (errGatewayID (id r))))
  end.

(** *** Reading a trace *)

(** The messages that were read from the websocket, in order. *)
Definition received (tr : list effect) : list string :=
  omap (fun e => match e with ReadMessage (Ok data) => Some data | _ => None end) tr.

(** The messages that were handed to the formatter, in order. *)
Definition handled (tr : list effect) : list string :=
  omap (fun e => match e with HandleUp data => Some data | _ => None end) tr.

(** The messages that were written to the websocket, in order. *)
Definition written (tr : list effect) : list (messageType * string) :=
  omap (fun e => match e with WriteMessage t data => Some (t, data) | _ => None end) tr.

(** *** handleConnectionInfo *)

Record ServerInfo : Type := {
  Scheme : string;
  Address : string
}.

(** The request of the connection-info endpoint and the answers of the
    collaborators; [formatConnectionInfo] is the formatter's
    [HandleConnectionInfo] on the data read and the server info. *)
Record infoRequest : Type := {
  IsTLS : bool;
  UseTrafficTLSAddress : bool;
  Host : string;
  infoUpgrade : option error;
  infoRead : result error string;
  formatConnectionInfo : string -> ServerInfo -> string;
  infoWrite : option error
}.

Definition handleConnectionInfo (r : infoRequest) : list effect * option error :=
  match infoUpgrade r with
  | Some err =>
      ([Upgrade; Log Debug "Failed to upgrade request to websocket connection"],
       Some err)
  | None =>
      match infoRead r with
      | Err err =>
          ([Upgrade; ReadMessage (Err err); Log Debug "Failed to read message";
            Close], Some err)
      | Ok data =>
          let scheme := if IsTLS r || UseTrafficTLSAddress r then "wss" else "ws" in
          let info := {| Scheme := scheme; Address := Host r |} in
          let resp := formatConnectionInfo r data info in
          match infoWrite r with
          | Some err =>
              ([Upgrade; ReadMessage (Ok data); WriteMessage TextMessage resp;
                Log Warn "Failed to write connection info response message";
                Close], Some err)
          | None =>
              ([Upgrade; ReadMessage (Ok data); WriteMessage TextMessage resp;
                Log Debug "Sent connection info response message"; Close],
               None)
          end
      end
  end.

(** *** errorHandler *)

(** The errors that reach the HTTP error handler, by what the handler asks
    of them: an [*echo.HTTPError] with its code and message; an error that
    [errors.From] converts, with the answers of [errors.IsInternal],
    [errors.ToHTTPStatusCode] and [Error()]; any other error. *)
Inductive httpError : Type :=
| HTTPError (Code : Z) (Message : string)
| TTNError (internal : bool) (statusCode : Z) (text : string)
| OtherError.

Inductive body : Type :=
| message (m : string)
| errorMessage (Message : string).

Inductive response : Type :=
| JSON (code : Z) (b : body)
| NoContent (code : Z).

Definition StatusInternalServerError : Z := 500.

Definition errorHandler (err : httpError) : response :=
  match err with
  | HTTPError code msg => JSON code (message msg)
  | _ =>
      let '(statusCode, description) :=
        match err with
        | TTNError internal status text =>
            (status, if negb internal then text else "")
        | _ => (StatusInternalServerError, "")
        end in
      if negb (String.eqb description "")
      then JSON statusCode (errorMessage description)
      else NoContent statusCode
  end.

(** *** Turns that keep the read loop going *)

(** A turn in which the check passes, the pongs are written, a message is
    read and handled, and the answer to the gateway, if there is one, is
    written. *)
Definition turn_passes (t : turn) : bool :=
  match require t, snd (controlFrames (control t)), read t, handleUp t, write t with
  | None, None, Ok _, Ok None, _ => true
  | None, None, Ok _, Ok (Some _), None => true
  | _, _, _, _, _ => false
  end.

(** The effects that the read loop itself can have. *)
Definition read_loop_effect (e : effect) : bool :=
  match e with
  | Require _ | ReadMessage _ | HandleUp _ | Log _ _ | Disconnect _ => true
  | WriteMessage TextMessage _ | WriteMessage PongMessage _ => true
  | _ => false
  end.

End ws.

(** ** Package events/grpc: the events server *)
Module events_grpc.

Inductive error : Type :=
| errInvalidRegexp (cause : string)
| errNoMatchingEvents (regexp : string)
| errUnknownEventName (name : string)
| errStorageDisabled
| collaborator (msg : string).
(** [collaborator] stands for the errors of the rights check and of the
    events store; [errInvalidRegexp] carries the compiler's error as cause. *)

(** *** Go's strings package, on byte strings *)

Definition HasPrefix (s p : string) : bool :=
  (String.length p <=? String.length s)%nat
  && String.eqb (substring 0 (String.length p) s) p.

Definition HasSuffix (s suffix : string) : bool :=
  (String.length suffix <=? String.length s)%nat
  && String.eqb
       (substring (String.length s - String.length suffix)
          (String.length suffix) s)
       suffix.

Fixpoint TrimLeft (s : string) (c : ascii) : string :=
  match s with
  | EmptyString => EmptyString
  | String a s' => if Ascii.eqb a c then TrimLeft s' c else s
  end.

Fixpoint TrimRight (s : string) (c : ascii) : string :=
  match s with
  | EmptyString => EmptyString
  | String a s' =>
      match TrimRight s' c with
      | EmptyString => if Ascii.eqb a c then EmptyString else String a EmptyString
      | rest => String a rest
      end
  end.

(** [strings.Trim s cutset] for a cutset of the one character [c]. *)
Definition Trim (s : string) (c : ascii) : string := TrimRight (TrimLeft s c) c.

(** The order of [sort.Strings]: bytewise lexicographic. *)
Definition string_le (a b : string) : Prop := String.leb a b = true.

#[global] Instance string_le_dec : RelDecision string_le.
Proof. intros a b. unfold string_le. apply _. Defined.

(** *** processNames *)
Section processNames.

(** [regexp.Compile], with [MatchString] of the compiled expression, and
    the names of the defined events that the server was built with. *)
Variable Compile : string -> result string (string -> bool).
Variable definedNames : gset string.

(** A name between slashes is a regular expression. *)
Definition is_regexp (name : string) : bool :=
  HasPrefix name "/" && HasSuffix name "/".

(** The defined names that a compiled expression matches. *)
Definition matching (re : string -> bool) : gset string :=
  filter (fun defined => re defined = true) definedNames.

(** The loop over the names, with the set of names collected so far. *)
Fixpoint collectNames (names : list string) (nameMap : gset string)
    : result error (gset string) :=
  match names with
  | [] => Ok nameMap
  | name :: rest =>
      if is_regexp name then
        match Compile (Trim name "/") with
        | Err cause => Err (errInvalidRegexp cause)
        | Ok re =>
            if decide (matching re = ∅)
            then Err (errNoMatchingEvents (Trim name "/"))
            else collectNames rest (nameMap ∪ matching re)
        end
      else if decide (name ∈ definedNames)
      then collectNames rest ({[name]} ∪ nameMap)
      else Err (errUnknownEventName name)
  end.

(** The result is the sorted list of the collected names; [nil] is the
    empty list. *)
Definition processNames (names : list string) : result error (list string) :=
  match names with
  | [] => Ok []
  | _ =>
      match collectNames names ∅ with
      | Err e => Err e
      | Ok nameMap =>
          if decide (nameMap = ∅) then Ok []
          else Ok (merge_sort string_le (elements nameMap))
      end
  end.

(** What one name stands for, and what is wrong with it, if anything. *)
Definition selection (name : string) : gset string :=
  if is_regexp name then
    match Compile (Trim name "/") with
    | Ok re => matching re
    | Err _ => ∅
    end
  else {[name]}.

Definition name_error (name : string) : option error :=
  if is_regexp name then
    match Compile (Trim name "/") with
    | Err cause => Some (errInvalidRegexp cause)
    | Ok re =>
        if decide (matching re = ∅)
        then Some (errNoMatchingEvents (Trim name "/"))
        else None
    end
  else if decide (name ∈ definedNames) then None
  else Some (errUnknownEventName name).

End processNames.

(** A stand-in for [regexp.Compile] in examples: an expression that starts
    with an opening parenthesis does not compile, any other one matches the
    strings that start with it. *)
Definition prefix_Compile (expr : string) : result string (string -> bool) :=
  if String.prefix "(" expr then Err "missing closing )"
  else Ok (fun s => String.prefix expr s).

Definition sample_names : gset string :=
  {[ "gs.up.receive"; "gs.down.send"; "as.up.forward" ]}.

(** *** FindRelated *)

(** The fields of an event in its protocol buffer form. *)
Record Event : Type := {
  Name : string;
  Time : Z;
  Identifiers : list string;
  Data : option string;
  CorrelationIds : list string;
  Origin : string;
  Context : list (string * string);
  Visibility : list string;
  Authentication : option string;
  RemoteIp : string;
  UserAgent : string;
  UniqueId : string
}.

(** An event of the store, by the answers of [events.Proto] and of
    [rightsutil.EventIsVisible] for it. *)
Record stored : Type := {
  proto : result error Event;
  isVisible : result error bool
}.

(** The copy of an event that leaves its private fields out. *)
Definition public_copy (evtProto : Event) : Event := {|
  Name := Name evtProto;
  Time := Time evtProto;
  Identifiers := Identifiers evtProto;
  Data := None;
  CorrelationIds := [];
  Origin := Origin evtProto;
  Context := [];
  Visibility := Visibility evtProto;
  Authentication := None;
  RemoteIp := "";
  UserAgent := "";
  UniqueId := UniqueId evtProto
|}.

(** The loop over the events found. *)
Fixpoint relatedEvents (evts : list stored) : list Event :=
  match evts with
  | [] => []
  | evt :: rest =>
      match proto evt with
      | Err _ => relatedEvents rest
      | Ok evtProto =>
          match isVisible evt with
          | Err _ => relatedEvents rest
          | Ok true => evtProto :: relatedEvents rest
          | Ok false => public_copy evtProto :: relatedEvents rest
          end
      end
  end.

(** [FindRelated], from whether the pubsub is a store, the answer of
    [rights.AuthInfo] and the answer of the store. *)
Definition FindRelated (hasStore : bool) (authInfo : option error)
    (found : result error (list stored)) : result error (list Event) :=
  if negb hasStore then Err errStorageDisabled
  else
    match authInfo with
    | Some err => Err err
    | None =>
        match found with
        | Err err => Err err
        | Ok evts => Ok (relatedEvents evts)
        end
    end.

End events_grpc.

(** * Properties *)

(** ** Integer conversions *)

Lemma int8_small x : -128 <= x <= 127 -> int8 x = x.
Proof. intros H. unfold int8. rewrite Z.mod_small; lia. Qed.

Lemma int8_range x : -128 <= int8 x <= 127.
Proof. unfold int8. pose proof (Z.mod_pos_bound (x + 128) 256). lia. Qed.

(** ** RX1 data rate *)
Section Rx1.
Import ttnpb band.

Lemma as923_tables b :
  b ∈ [AS_923_RP2_v1_0_2; AS_923_2_RP2_v1_0_2; AS_923_3_RP2_v1_0_2] ->
  exists id o, b = as923RP2102Band id o.
Proof.
  rewrite !elem_of_cons, elem_of_nil.
  intros [-> | [-> | [-> | []]]]; eexists _, _; reflexivity.
Qed.

Lemma as923_data_rates id o idx :
  is_Some (DataRates (as923RP2102Band id o) !! idx) <-> 0 <= idx <= 7.
Proof.
  cbn [DataRates as923RP2102Band].
  rewrite !lookup_insert_is_Some, lookup_singleton_is_Some.
  unfold DATA_RATE_0, DATA_RATE_1, DATA_RATE_2, DATA_RATE_3, DATA_RATE_4,
    DATA_RATE_5, DATA_RATE_6, DATA_RATE_7.
  lia.
Qed.

Lemma cn470_data_rates idx :
  is_Some (DataRates CN_470_510_26_A_RP2_v1_0_0 !! idx) <-> 0 <= idx <= 5.
Proof.
  cbn [DataRates CN_470_510_26_A_RP2_v1_0_0].
  rewrite !lookup_insert_is_Some, lookup_singleton_is_Some.
  unfold DATA_RATE_0, DATA_RATE_1, DATA_RATE_2, DATA_RATE_3, DATA_RATE_4,
    DATA_RATE_5.
  lia.
Qed.

(** The AS923 rule never fails and never leaves [minDR .. DATA_RATE_7],
    whatever the integers it is given. *)
Lemma as923_rx1_total idx offset dwellTime :
  exists r, as923RP2102_Rx1DataRate idx offset dwellTime = Returns (Ok r)
            /\ spec_min_data_rate dwellTime <= r <= DATA_RATE_7.
Proof.
  unfold as923RP2102_Rx1DataRate, spec_min_data_rate.
  set (si := int8 (int8 idx - _)).
  destruct dwellTime.
  - change (int8 DATA_RATE_2) with 2. unfold DATA_RATE_2, DATA_RATE_7.
    destruct (Z.leb_spec si 2); [| destruct (Z.leb_spec 7 si)];
      eexists; (split; [reflexivity | lia]).
  - change (int8 DATA_RATE_0) with 0. unfold DATA_RATE_0, DATA_RATE_7.
    destruct (Z.leb_spec si 0); [| destruct (Z.leb_spec 7 si)];
      eexists; (split; [reflexivity | lia]).
Qed.

(** The reading of the CN470-510 downlink table. *)
Lemma cn470510DownlinkDRTable_index idx offset :
  0 <= idx <= 5 -> 0 <= offset <= 5 ->
  exists row, index cn470510DownlinkDRTable idx = Returns row
              /\ index row offset = Returns (Z.max 0 (idx - offset)).
Proof.
  intros Hi Ho. unfold index, cn470510DownlinkDRTable.
  destruct (Z.ltb_spec idx 0) as [? | _]; [lia |].
  rewrite list_lookup_fmap.
  assert (Hrow : seqZ 0 6 !! Z.to_nat idx = Some idx)
    by (apply lookup_seqZ; lia).
  rewrite Hrow. cbn [fmap option_fmap option_map].
  eexists; split; [reflexivity |].
  destruct (Z.ltb_spec offset 0) as [? | _]; [lia |].
  rewrite list_lookup_fmap.
  assert (Hcol : seqZ 0 6 !! Z.to_nat offset = Some offset)
    by (apply lookup_seqZ; lia).
  rewrite Hcol. reflexivity.
Qed.

Lemma cn470_rx1_in_bounds idx offset dwellTime :
  0 <= idx <= 5 -> 0 <= offset <= 5 ->
  cn47051026A_Rx1DataRate idx offset dwellTime
  = Returns (Ok (Z.max 0 (idx - offset))).
Proof.
  intros Hi Ho. unfold cn47051026A_Rx1DataRate, DATA_RATE_5.
  destruct (Z.ltb_spec 5 idx) as [? | _]; [lia |].
  destruct (Z.ltb_spec 5 offset) as [? | _]; [lia |].
  destruct (cn470510DownlinkDRTable_index idx offset Hi Ho) as (row & -> & ->).
  reflexivity.
Qed.

(** C1, as stated, fails: on the AS923 table the uplink index DATA_RATE_7 (a
    key of the table's data rates) with offset 0 derives DATA_RATE_7, and so
    does DATA_RATE_5 with offset 7; both lie above MaxADRDataRateIndex, which
    is DATA_RATE_5. *)
Lemma rx1_above_max_adr_index :
  AS_923_RP2_v1_0_2 ∈ tables
  /\ is_Some (DataRates AS_923_RP2_v1_0_2 !! DATA_RATE_7)
  /\ Rx1DataRate AS_923_RP2_v1_0_2 DATA_RATE_7 0 false = Returns (Ok 7)
  /\ Rx1DataRate AS_923_RP2_v1_0_2 DATA_RATE_5 7 false = Returns (Ok 7)
  /\ ~ (7 <= MaxADRDataRateIndex AS_923_RP2_v1_0_2).
Proof.
  split; [unfold tables; apply list_elem_of_here |].
  split; [apply as923_data_rates; unfold DATA_RATE_7; lia |].
  split; [reflexivity |]. split; [reflexivity |].
  cbn. unfold DATA_RATE_5. lia.
Qed.

(** C1, amended: for each band table of the two files, every uplink index
    that is a key of the table's data rates and every offset from 0 to 7
    (from 0 to 5 for CN470-510-26A, which rejects the larger ones), the RX1
    derivation succeeds, and its result lies between the smallest and the
    largest index of the table's data rates (DATA_RATE_7 for AS923,
    DATA_RATE_5 for CN470-510-26A). *)
Theorem rx1_within_data_rates b idx offset dwellTime :
  b ∈ tables ->
  is_Some (DataRates b !! idx) ->
  0 <= offset <= 7 ->
  (ID b = CN_470_510_26_A -> offset <= 5) ->
  exists r, Rx1DataRate b idx offset dwellTime = Returns (Ok r)
            /\ minDataRateIndex b <= r <= maxDataRateIndex b.
Proof.
  intros Hb Hidx Hoff Hcn. unfold tables in Hb.
  rewrite !elem_of_cons, elem_of_nil in Hb.
  destruct Hb as [-> | [-> | [-> | [-> | []]]]].
  1-3: destruct (as923_rx1_total idx offset dwellTime) as (r & Hr & Hlo & Hhi);
    exists r; (split; [exact Hr |]);
    assert (Hmin : 0 <= spec_min_data_rate dwellTime)
      by (destruct dwellTime; cbv; discriminate);
    unfold DATA_RATE_7 in Hhi;
    change (minDataRateIndex _) with 0;
    change (maxDataRateIndex _) with 7; lia.
  apply cn470_data_rates in Hidx.
  specialize (Hcn eq_refl).
  exists (Z.max 0 (idx - offset)). split.
  - apply cn470_rx1_in_bounds; lia.
  - change (minDataRateIndex _) with 0.
    change (maxDataRateIndex _) with 5. lia.
Qed.

Lemma rx1_within_data_rates_witness :
  exists r, Rx1DataRate AS_923_RP2_v1_0_2 6 7 true = Returns (Ok r)
            /\ minDataRateIndex AS_923_RP2_v1_0_2 <= r
               <= maxDataRateIndex AS_923_RP2_v1_0_2.
Proof.
  apply (rx1_within_data_rates AS_923_RP2_v1_0_2 6 7 true).
  - unfold tables. apply list_elem_of_here.
  - exists (LoRaDataRate 7 250000 (DwellTimeMaxMACPayloadSize 230 250)).
    vm_compute. reflexivity.
  - lia.
  - vm_compute. discriminate.
Defined.

(** The AS923 function on integers that the [int8] conversions keep. *)
Lemma as923_rx1_rule idx offset dwellTime :
  -128 <= idx <= 127 ->
  -128 <= offset <= 127 ->
  -128 <= idx - spec_effective_offset offset <= 127 ->
  as923RP2102_Rx1DataRate idx offset dwellTime
  = Returns (Ok (spec_clamp (spec_min_data_rate dwellTime) DATA_RATE_7
                   (idx - spec_effective_offset offset))).
Proof.
  intros Hidx Hoff Hsi.
  unfold as923RP2102_Rx1DataRate, spec_effective_offset in *.
  rewrite (int8_small offset) by lia. rewrite (int8_small idx) by lia.
  assert (Hso : (if 5 <? offset then int8 (5 - offset) else offset)
                = (if offset <=? 5 then offset else 5 - offset)).
  { destruct (Z.ltb_spec 5 offset), (Z.leb_spec offset 5); try lia.
    apply int8_small; lia. }
  rewrite Hso. rewrite int8_small by exact Hsi.
  set (si := idx - _) in *.
  unfold spec_clamp, spec_min_data_rate.
  destruct dwellTime.
  - change (int8 DATA_RATE_2) with 2. unfold DATA_RATE_2, DATA_RATE_7.
    destruct (Z.leb_spec si 2); [| destruct (Z.leb_spec 7 si)];
      do 2 f_equal; lia.
  - change (int8 DATA_RATE_0) with 0. unfold DATA_RATE_0, DATA_RATE_7.
    destruct (Z.leb_spec si 0); [| destruct (Z.leb_spec 7 si)];
      do 2 f_equal; lia.
Qed.

(** On the values of the two enumerations (data-rate indices 0 to 15,
    offsets 0 to 7) no conversion truncates. *)
Lemma as923_rx1_rule_enum idx offset dwellTime :
  0 <= idx <= 15 -> 0 <= offset <= 7 ->
  as923RP2102_Rx1DataRate idx offset dwellTime
  = Returns (Ok (spec_clamp (spec_min_data_rate dwellTime) DATA_RATE_7
                   (idx - spec_effective_offset offset))).
Proof.
  intros Hidx Hoff. apply as923_rx1_rule; try lia.
  unfold spec_effective_offset. destruct (Z.leb_spec offset 5); lia.
Qed.

(** C2: for the three AS923 RP002-1.0.2 tables, Rx1DataRate takes the
    effective offset ([offset] up to 5, [5 - offset] above), subtracts it
    from the uplink index, clamps the difference below to DATA_RATE_2 under
    dwell time and to DATA_RATE_0 otherwise, above to DATA_RATE_7, and
    returns it without an error. The hypotheses say that the inputs and the
    difference are integers that fit the function's [int8] variables, which
    covers every value of the two enumerations. *)
Theorem as923_rx1_computes_clamped_difference b idx offset dwellTime :
  b ∈ [AS_923_RP2_v1_0_2; AS_923_2_RP2_v1_0_2; AS_923_3_RP2_v1_0_2] ->
  -128 <= idx <= 127 ->
  -128 <= offset <= 127 ->
  -128 <= idx - spec_effective_offset offset <= 127 ->
  Rx1DataRate b idx offset dwellTime
  = Returns (Ok (spec_clamp (spec_min_data_rate dwellTime) DATA_RATE_7
                   (idx - spec_effective_offset offset))).
Proof.
  intros Hb Hidx Hoff Hsi.
  destruct (as923_tables b Hb) as (id & o & ->).
  cbn [Rx1DataRate as923RP2102Band].
  apply as923_rx1_rule; assumption.
Qed.

Lemma as923_rx1_computes_clamped_difference_witness :
  Rx1DataRate AS_923_2_RP2_v1_0_2 DATA_RATE_4 7 true = Returns (Ok DATA_RATE_6).
Proof.
  apply (as923_rx1_computes_clamped_difference
           AS_923_2_RP2_v1_0_2 DATA_RATE_4 7 true).
  - apply list_elem_of_further, list_elem_of_here.
  - unfold DATA_RATE_4. lia.
  - lia.
  - vm_compute. split; discriminate.
Defined.

(** Outside that domain the conversion shows: index 256 is read as 0. *)
Example as923_rx1_truncates :
  Rx1DataRate AS_923_RP2_v1_0_2 256 0 false = Returns (Ok DATA_RATE_0).
Proof. reflexivity. Qed.

(** C3, as stated, fails: the AS923 function has no error path. Index 8 is
    above the table's largest index and offset 8 above the largest offset,
    and both calls succeed. *)
Lemma as923_rx1_accepts_out_of_range :
  maxDataRateIndex AS_923_RP2_v1_0_2 = 7
  /\ Rx1DataRate AS_923_RP2_v1_0_2 8 0 false = Returns (Ok DATA_RATE_7)
  /\ Rx1DataRate AS_923_RP2_v1_0_2 0 8 false = Returns (Ok DATA_RATE_3).
Proof. repeat split; reflexivity. Qed.

(** C3, amended: the CN470-510-26A derivation fails with the
    data-rate-index-too-high error when the uplink index exceeds 5, with the
    offset-too-high error when the index does not but the offset exceeds 5,
    and succeeds for every index and offset from 0 to 5; the AS923
    derivation succeeds on every input. *)
Theorem rx1_errors idx offset dwellTime :
  (5 < idx ->
   Rx1DataRate CN_470_510_26_A_RP2_v1_0_0 idx offset dwellTime
   = Returns (Err (errDataRateIndexTooHigh 5)))
  /\ (idx <= 5 -> 5 < offset ->
      Rx1DataRate CN_470_510_26_A_RP2_v1_0_0 idx offset dwellTime
      = Returns (Err (errDataRateOffsetTooHigh 5)))
  /\ (0 <= idx <= 5 -> 0 <= offset <= 5 ->
      exists r, Rx1DataRate CN_470_510_26_A_RP2_v1_0_0 idx offset dwellTime
                = Returns (Ok r))
  /\ (forall b,
        b ∈ [AS_923_RP2_v1_0_2; AS_923_2_RP2_v1_0_2; AS_923_3_RP2_v1_0_2] ->
        exists r, Rx1DataRate b idx offset dwellTime = Returns (Ok r)).
Proof.
  cbn [Rx1DataRate CN_470_510_26_A_RP2_v1_0_0].
  unfold cn47051026A_Rx1DataRate, DATA_RATE_5.
  repeat split.
  - intros H. destruct (Z.ltb_spec 5 idx); [reflexivity | lia].
  - intros Hi Ho. destruct (Z.ltb_spec 5 idx); [lia |].
    destruct (Z.ltb_spec 5 offset); [reflexivity | lia].
  - intros Hi Ho. eexists.
    apply (cn470_rx1_in_bounds idx offset dwellTime Hi Ho).
  - intros b Hb. destruct (as923_tables b Hb) as (id & o & ->).
    destruct (as923_rx1_total idx offset dwellTime) as (r & Hr & _).
    exists r. exact Hr.
Qed.

Lemma rx1_errors_witness :
  Rx1DataRate CN_470_510_26_A_RP2_v1_0_0 6 0 false
  = Returns (Err (errDataRateIndexTooHigh 5))
  /\ Rx1DataRate CN_470_510_26_A_RP2_v1_0_0 5 6 false
     = Returns (Err (errDataRateOffsetTooHigh 5))
  /\ (exists r, Rx1DataRate CN_470_510_26_A_RP2_v1_0_0 5 2 false = Returns (Ok r))
  /\ (exists r, Rx1DataRate AS_923_RP2_v1_0_2 9 9 true = Returns (Ok r)).
Proof.
  split; [| split; [| split]].
  - destruct (rx1_errors 6 0 false) as (H & _). apply H. lia.
  - destruct (rx1_errors 5 6 false) as (_ & H & _). apply H; lia.
  - destruct (rx1_errors 5 2 false) as (_ & _ & H & _). apply H; lia.
  - destruct (rx1_errors 9 9 true) as (_ & _ & _ & H). apply H.
    apply list_elem_of_here.
Defined.

(** A negative index passes both guards of the CN470-510-26A function and
    the table access panics. *)
Example cn470_rx1_negative_index :
  Rx1DataRate CN_470_510_26_A_RP2_v1_0_0 (-1) 0 false = Panics.
Proof. reflexivity. Qed.

End Rx1.

(** ** Channel masks *)
Section ChMask.
Import band.

Lemma bools_of_mask_cons n b acc :
  bools_of_mask (S n) (2 * acc + Z.b2z b) = b :: bools_of_mask n acc.
Proof.
  unfold bools_of_mask. cbn [seq fmap list_fmap].
  f_equal.
  - apply Z.testbit_0_r.
  - rewrite <- fmap_S_seq, <- list_fmap_compose.
    apply list_fmap_ext. intros _ i _. unfold compose.
    rewrite Nat2Z.inj_succ.
    apply Z.testbit_succ_r. lia.
Qed.

(** Reading back as many bits as were written gives the flags again. *)
Lemma bools_of_mask_of_bools chs :
  bools_of_mask (length chs) (mask_of_bools chs) = chs.
Proof.
  induction chs as [| b chs IH]; [reflexivity |].
  cbn [length mask_of_bools foldr].
  rewrite bools_of_mask_cons. f_equal. exact IH.
Qed.

Lemma mask_of_bools_bound chs :
  0 <= mask_of_bools chs < 2 ^ Z.of_nat (length chs).
Proof.
  induction chs as [| b chs IH]; [cbn; lia |].
  cbn [length mask_of_bools foldr].
  fold (mask_of_bools chs).
  rewrite Nat2Z.inj_succ, Z.pow_succ_r by lia.
  destruct b; cbn [Z.b2z]; lia.
Qed.

Lemma parse_generate_blocks blocks chs :
  length chs = (16 * blocks)%nat ->
  parseChMaskBlocks (generateChMaskBlocks blocks chs) = chs.
Proof.
  revert chs. induction blocks as [| k IH]; intros chs Hlen.
  - destruct chs; [reflexivity | discriminate].
  - cbn [generateChMaskBlocks]. unfold parseChMaskBlocks in *.
    rewrite bind_cons.
    assert (H16 : length (take 16 chs) = 16%nat)
      by (rewrite length_take; lia).
    rewrite <- H16 at 1. rewrite bools_of_mask_of_bools.
    rewrite IH by (rewrite length_drop; lia).
    apply take_drop.
Qed.

(** Every generated block is a 16-bit value, and there is one block for
    each 16 channels. *)
Lemma generateChMaskBlocks_compact blocks chs :
  length (generateChMaskBlocks blocks chs) = blocks
  /\ Forall (fun mask => 0 <= mask < 2 ^ 16) (generateChMaskBlocks blocks chs).
Proof.
  revert chs. induction blocks as [| k IH]; intros chs; cbn.
  - split; [reflexivity | constructor].
  - destruct (IH (drop 16 chs)) as [Hl Hf]. split; [now rewrite Hl |].
    constructor; [| exact Hf].
    pose proof (mask_of_bools_bound (take 16 chs)) as [Hlo Hhi].
    split; [exact Hlo |].
    eapply Z.lt_le_trans; [exact Hhi |].
    apply Z.pow_le_mono_r; [lia |]. rewrite length_take. lia.
Qed.

(** C4: for each band table, parsing the masks generated for a channel set
    gives the set back, for every set over the band's uplink channels (16
    flags for AS923, 48 for CN470-510-26A), the empty and the full set
    among them. *)
Theorem chmask_round_trip b (S : list bool) :
  b ∈ tables ->
  Z.of_nat (length S) = MaxUplinkChannels b ->
  ParseChMask b (GenerateChMasks b S) = S.
Proof.
  intros Hb Hlen. unfold tables in Hb.
  rewrite !elem_of_cons, elem_of_nil in Hb.
  destruct Hb as [-> | [-> | [-> | [-> | []]]]]; cbn in Hlen |- *.
  1-3: apply (parse_generate_blocks 1); lia.
  apply (parse_generate_blocks 3); lia.
Qed.

Lemma chmask_round_trip_witness :
  ParseChMask CN_470_510_26_A_RP2_v1_0_0
    (GenerateChMasks CN_470_510_26_A_RP2_v1_0_0
       (replicate 47 true ++ [false]))
  = replicate 47 true ++ [false].
Proof.
  apply (chmask_round_trip CN_470_510_26_A_RP2_v1_0_0).
  - unfold tables. do 3 apply list_elem_of_further. apply list_elem_of_here.
  - reflexivity.
Defined.

Example chmask_empty :
  GenerateChMasks AS_923_RP2_v1_0_2 (replicate 16 false) = [0]
  /\ ParseChMask AS_923_RP2_v1_0_2 [0] = replicate 16 false.
Proof. split; reflexivity. Qed.

Example chmask_full :
  GenerateChMasks CN_470_510_26_A_RP2_v1_0_0 (replicate 48 true)
  = [65535; 65535; 65535]
  /\ ParseChMask CN_470_510_26_A_RP2_v1_0_0 [65535; 65535; 65535]
     = replicate 48 true.
Proof. split; reflexivity. Qed.

Example chmask_block_order :
  GenerateChMasks CN_470_510_26_A_RP2_v1_0_0
    ([true; false; true] ++ replicate 13 false
     ++ replicate 16 false ++ replicate 15 false ++ [true])
  = [5; 0; 32768].
Proof. reflexivity. Qed.

End ChMask.

(** ** XTime *)
Section XTimeFacts.
Import lbslns.

Lemma land_ones_small t n : 0 <= n -> 0 <= t < 2 ^ n -> Z.land t (Z.ones n) = t.
Proof. intros Hn Ht. rewrite Z.land_ones by exact Hn. apply Z.mod_small, Ht. Qed.

(** The time field does not reach the bits of the session id. *)
Lemma time_below_id_shift s n t :
  0 <= n <= s -> 0 <= t < 2 ^ n -> Z.shiftr t s = 0.
Proof.
  intros Hs Ht. rewrite Z.shiftr_div_pow2 by lia.
  apply Z.div_small. split; [lia |].
  eapply Z.lt_le_trans; [apply Ht |]. apply Z.pow_le_mono_r; lia.
Qed.

(** The shifted session id does not reach the bits of the time field. *)
Lemma id_above_time_bits s n id :
  0 <= n <= s -> Z.land (Z.shiftl id s) (Z.ones n) = 0.
Proof.
  intros Hs. rewrite Z.land_ones by lia. rewrite Z.shiftl_mul_pow2 by lia.
  replace s with (n + (s - n)) by lia.
  rewrite Z.pow_add_r by lia.
  rewrite Z.mul_assoc, (Z.mul_comm _ (2 ^ n)), <- Z.mul_assoc.
  rewrite Z.mul_comm. apply Z.mod_mul.
  apply Z.pow_nonzero; lia.
Qed.

Lemma session_id_recovered s n id t :
  0 <= n <= s -> 0 <= t < 2 ^ n ->
  SessionIDFromXTime s (EncodeXTime s n id t) = id.
Proof.
  intros Hs Ht. unfold SessionIDFromXTime, EncodeXTime.
  rewrite land_ones_small by (lia || exact Ht).
  rewrite Z.shiftr_lor, Z.shiftr_shiftl_l by lia.
  rewrite Z.sub_diag, Z.shiftl_0_r.
  rewrite (time_below_id_shift s n t Hs Ht). apply Z.lor_0_r.
Qed.

Lemma concentrator_time_recovered s n id t :
  0 <= n <= s -> 0 <= t < 2 ^ n ->
  ConcentratorTimeFromXTime n (EncodeXTime s n id t) = t.
Proof.
  intros Hs Ht. unfold ConcentratorTimeFromXTime, EncodeXTime.
  rewrite Z.land_lor_distr_l, id_above_time_bits by exact Hs.
  rewrite Z.lor_0_l, <- Z.land_assoc, Z.land_diag.
  apply land_ones_small; [lia | exact Ht].
Qed.

(** An id of [idBits] bits keeps the packed value within
    [idShift + idBits] bits, so a 64-bit counter holds it without wrapping
    when that sum is at most 63. *)
Lemma xtime_fits s n idBits id t :
  0 <= n <= s -> 0 <= idBits ->
  0 <= id < 2 ^ idBits -> 0 <= t < 2 ^ n ->
  0 <= EncodeXTime s n id t < 2 ^ (s + idBits).
Proof.
  intros Hs Hb Hid Ht. unfold EncodeXTime.
  rewrite land_ones_small by (lia || exact Ht).
  assert (Hsh : 0 <= Z.shiftl id s) by (apply Z.shiftl_nonneg; lia).
  split; [apply Z.lor_nonneg; lia |].
  assert (Hlog : forall x, 0 <= x < 2 ^ (s + idBits) -> 0 < s + idBits ->
                 Z.log2 x < s + idBits).
  { intros x Hx Hk. destruct (Z.eq_dec x 0) as [-> | Hne]; [cbn; lia |].
    apply Z.log2_lt_pow2; lia. }
  assert (Hid' : Z.shiftl id s < 2 ^ (s + idBits)).
  { rewrite Z.shiftl_mul_pow2, Z.pow_add_r, Z.mul_comm by lia.
    apply Z.mul_lt_mono_pos_l; [apply Z.pow_pos_nonneg; lia | lia]. }
  assert (Ht' : t < 2 ^ (s + idBits)).
  { eapply Z.lt_le_trans; [apply Ht |]. apply Z.pow_le_mono_r; lia. }
  destruct (Z.eq_dec (Z.lor (Z.shiftl id s) t) 0) as [-> | Hne];
    [apply Z.pow_pos_nonneg; lia |].
  assert (Hpos : 0 < Z.lor (Z.shiftl id s) t)
    by (pose proof (proj2 (Z.lor_nonneg (Z.shiftl id s) t)); lia).
  assert (Hk : 0 < s + idBits).
  { destruct (Z.eq_dec (s + idBits) 0) as [Hz | ?]; [| lia].
    exfalso. rewrite Hz in Hid', Ht'. cbn in Hid', Ht'.
    assert (Z.shiftl id s = 0) as Ha by lia.
    assert (t = 0) as Hb' by lia.
    rewrite Ha, Hb' in Hne. now apply Hne. }
  apply Z.log2_lt_pow2; [exact Hpos |].
  rewrite Z.log2_lor by lia.
  apply Z.max_lub_lt; apply Hlog; lia.
Qed.

(** C5: decoding an encoded XTime gives back the session id and the
    concentrator time that went in, for every session id and every
    concentrator time that fits the time field; the time field lies below
    the bits of the session id. *)
Theorem xtime_round_trip idShift timeBits sessionID concentratorTime :
  0 <= timeBits <= idShift ->
  0 <= concentratorTime < 2 ^ timeBits ->
  DecodeXTime idShift timeBits
    (EncodeXTime idShift timeBits sessionID concentratorTime)
  = (sessionID, concentratorTime).
Proof.
  intros Hs Ht. unfold DecodeXTime.
  rewrite session_id_recovered, concentrator_time_recovered by assumption.
  reflexivity.
Qed.

(** The values of [TestTransferTime]: session id 0x42, 890 microseconds. *)
Lemma xtime_round_trip_witness :
  DecodeXTime 48 48 (EncodeXTime 48 48 66 890) = (66, 890).
Proof.
  apply (xtime_round_trip 48 48 66 890).
  - lia.
  - split; [lia | reflexivity].
Defined.

Example xtime_packed : EncodeXTime 48 48 66 890 = 66 * 2 ^ 48 + 890.
Proof. reflexivity. Qed.

(** A time that overflows its field is not recovered. *)
Example xtime_time_overflow :
  DecodeXTime 48 48 (EncodeXTime 48 48 66 (2 ^ 48 + 1)) = (66, 1).
Proof. reflexivity. Qed.

End XTimeFacts.

(** ** The band registry *)
Section Registry.
Import ttnpb band.

(** [Get] is the lookup of the pair, with the error in place of [None]. *)
Lemma Get_registered all id version :
  Get all id version
  = match registered all id version with
    | Some band => Ok band
    | None => Err (errBandNotFound id version)
    end.
Proof.
  unfold Get, registered.
  destruct (all !! id) as [versions |]; cbn; [| reflexivity].
  destruct (versions !! version); reflexivity.
Qed.

(** C6: [Get] fails with the band-not-found error exactly when the pair is
    absent from the registry, that is when the region has no entry or its
    entry has no table for the version; it fails with no other error, and
    for a registered pair it returns the registered table. *)
Theorem get_fails_iff_absent
    (all : gmap string (gmap PHYVersion var.Band)) id version :
  (Get all id version = Err (errBandNotFound id version)
   <-> all !! id = None
       \/ exists versions, all !! id = Some versions /\ versions !! version = None)
  /\ (forall e, Get all id version = Err e -> e = errBandNotFound id version)
  /\ (forall versions band,
        all !! id = Some versions -> versions !! version = Some band ->
        Get all id version = Ok band).
Proof.
  unfold Get. repeat split.
  - destruct (all !! id) as [versions |] eqn:Hid; [| now left].
    destruct (versions !! version) eqn:Hv; [discriminate |].
    intros _. right. exists versions. split; [reflexivity | exact Hv].
  - intros [-> | (versions & -> & ->)]; reflexivity.
  - intros e. destruct (all !! id) as [versions |]; [| congruence].
    destruct (versions !! version); congruence.
  - intros versions band -> ->. reflexivity.
Qed.

Lemma get_fails_iff_absent_witness :
  Get All "XX_000_000" RP001_V1_1_REV_B
  = Err (errBandNotFound "XX_000_000" RP001_V1_1_REV_B)
  /\ Get All CN_470_510_26_A RP001_V1_1_REV_B
     = Err (errBandNotFound CN_470_510_26_A RP001_V1_1_REV_B)
  /\ Get All CN_470_510_26_A RP002_V1_0_0 = Ok var.CN_470_510_26_A_RP2_v1_0_0.
Proof.
  split; [| split].
  - destruct (get_fails_iff_absent All "XX_000_000" RP001_V1_1_REV_B)
      as (H & _).
    apply H. left. vm_compute. reflexivity.
  - destruct (get_fails_iff_absent All CN_470_510_26_A RP001_V1_1_REV_B)
      as (H & _).
    apply H. right.
    exists {[ RP002_V1_0_0 := var.CN_470_510_26_A_RP2_v1_0_0 ]}.
    split; vm_compute; reflexivity.
  - destruct (get_fails_iff_absent All CN_470_510_26_A RP002_V1_0_0)
      as (_ & _ & H).
    apply (H {[ RP002_V1_0_0 := var.CN_470_510_26_A_RP2_v1_0_0 ]});
      vm_compute; reflexivity.
Defined.

(** C7: [GetLatest] is [Get] at the constant version RP001_V1_1_REV_B, and
    its result depends on the registry through the entry of that version
    only: registries that agree on it give the same result, whatever they
    hold for the other versions. *)
Theorem get_latest_fixed_version
    (all : gmap string (gmap PHYVersion var.Band)) id :
  GetLatest all id = Get all id RP001_V1_1_REV_B
  /\ latestSupportedVersion = RP001_V1_1_REV_B
  /\ (forall all' : gmap string (gmap PHYVersion var.Band),
        registered all' id RP001_V1_1_REV_B = registered all id RP001_V1_1_REV_B ->
        GetLatest all' id = GetLatest all id).
Proof.
  split; [reflexivity |]. split; [reflexivity |].
  intros all' Hsame. unfold GetLatest, latestSupportedVersion.
  rewrite !Get_registered, Hsame. reflexivity.
Qed.

(** The registry without any of the RP002 tables of AS923 serves the same
    latest AS923 table. *)
Lemma get_latest_fixed_version_witness :
  GetLatest (<[AS_923 := {[ RP001_V1_1_REV_B := var.AS_923_RP1_v1_1_RevB ]}]> All)
    AS_923
  = GetLatest All AS_923.
Proof.
  destruct (get_latest_fixed_version All AS_923) as (_ & _ & H).
  apply H. vm_compute. reflexivity.
Defined.

Example get_latest_as923 : GetLatest All AS_923 = Ok var.AS_923_RP1_v1_1_RevB.
Proof. vm_compute. reflexivity. Qed.

(** The regions that only have RP002 tables have no latest table. *)
Example get_latest_cn470_26a :
  GetLatest All CN_470_510_26_A
  = Err (errBandNotFound CN_470_510_26_A RP001_V1_1_REV_B).
Proof. vm_compute. reflexivity. Qed.

Example get_unknown_region v :
  Get All "XX_000_000" v = Err (errBandNotFound "XX_000_000" v).
Proof. rewrite Get_registered. vm_compute. reflexivity. Qed.

End Registry.

(** ** The gateway id of the traffic endpoint *)
Section GatewayID.
Import ws.

Lemma strip_prefix_Some p s rest :
  strip_prefix p s = Some rest <-> s = (p ++ rest)%string.
Proof.
  revert s. induction p as [| a p IH]; intros s; cbn.
  - change ("" ++ rest)%string with rest. split; congruence.
  - change (String a p ++ rest)%string with (String a (p ++ rest)%string).
    destruct s as [| b s]; [split; discriminate |].
    destruct (Ascii.eqb_spec a b) as [-> | Hne].
    + rewrite IH. split; congruence.
    + split; [discriminate | congruence].
Qed.

Lemma all_chars_spec p s :
  all_chars p s = true <-> forall c, c ∈ list_ascii_of_string s -> p c = true.
Proof.
  induction s as [| a s IH]; cbn.
  - split; [intros _ c Hc; inversion Hc | reflexivity].
  - rewrite andb_true_iff, IH. split.
    + intros [Ha Hs] c Hc. apply elem_of_cons in Hc as [-> | Hc]; auto.
    + intros H. split; [apply H; left | intros c Hc; apply H; now right].
Qed.

(** The character class is the set of the 22 hexadecimal digits. *)
Lemma hex_class_spec c : hex_class c = bool_decide (c ∈ spec_hex_digits).
Proof. destruct c as [[] [] [] [] [] [] [] []]; vm_compute; reflexivity. Qed.

(** The matcher finds nothing, or the whole identifier and its 16 digits. *)
Lemma FindStringSubmatch_cases id :
  euiHexPattern_FindStringSubmatch id = []
  \/ exists digits,
       euiHexPattern_FindStringSubmatch id = [id; digits]
       /\ id = ("eui-" ++ digits)%string
       /\ String.length digits = 16%nat
       /\ all_chars hex_class digits = true.
Proof.
  unfold euiHexPattern_FindStringSubmatch.
  destruct (strip_prefix "eui-" id) as [group |] eqn:Hp; [| now left].
  destruct (_ && _) eqn:Hc; [| now left].
  apply andb_true_iff in Hc as [Hlen Hall].
  right. exists group. split; [reflexivity |].
  split; [apply strip_prefix_Some, Hp |].
  split; [apply Nat.eqb_eq, Hlen | exact Hall].
Qed.

(** It finds something exactly on the identifiers of the pattern. *)
Lemma spec_matches_eui_dec id :
  spec_matches_eui id <-> euiHexPattern_FindStringSubmatch id <> [].
Proof.
  split.
  - intros (digits & Hid & Hlen & Hhex).
    unfold euiHexPattern_FindStringSubmatch.
    apply strip_prefix_Some in Hid. rewrite Hid, Hlen. cbn.
    assert (Hall : all_chars hex_class digits = true).
    { apply all_chars_spec. intros c Hc. rewrite hex_class_spec.
      apply bool_decide_eq_true, Hhex, Hc. }
    rewrite Hall. discriminate.
  - intros H.
    destruct (FindStringSubmatch_cases id)
      as [Hnone | (digits & _ & Hid & Hlen & Hall)]; [contradiction |].
    exists digits. split; [exact Hid |]. split; [exact Hlen |].
    intros c Hin. rewrite all_chars_spec in Hall.
    specialize (Hall c Hin). rewrite hex_class_spec in Hall.
    apply bool_decide_eq_true in Hall. exact Hall.
Qed.

Lemma fromHexChar_hex_class c :
  hex_class c = true -> is_Some (fromHexChar c).
Proof.
  destruct c as [[] [] [] [] [] [] [] []]; vm_compute;
    first [discriminate | intros _; eexists; reflexivity].
Qed.

(** Digits of the class, in even number, always decode. *)
Lemma hex_DecodeString_total n s :
  String.length s = (2 * n)%nat -> all_chars hex_class s = true ->
  exists bytes, hex_DecodeString s = Some bytes /\ length bytes = n.
Proof.
  revert s. induction n as [| n IH]; intros s Hlen Hall.
  - destruct s; [exists []; split; reflexivity | discriminate].
  - destruct s as [| a [| b s]]; [cbn in Hlen; lia | cbn in Hlen; lia |].
    cbn in Hall. apply andb_true_iff in Hall as [Ha Hall].
    apply andb_true_iff in Hall as [Hb Hall].
    destruct (fromHexChar_hex_class a Ha) as [x Hx].
    destruct (fromHexChar_hex_class b Hb) as [y Hy].
    destruct (IH s) as (bytes & Hbytes & Hn); [cbn in Hlen; lia | exact Hall |].
    exists ((16 * x + y) :: bytes).
    cbn [hex_DecodeString]. rewrite Hx, Hy, Hbytes.
    split; [reflexivity | cbn; now rewrite Hn].
Qed.

(** An identifier of the pattern passes both checks: the first call of the
    handler is the one that fills the gateway context, with an EUI of eight
    bytes. *)
Lemma valid_gateway_id_reaches_server (r : request) :
  spec_matches_eui (id r) ->
  exists eui tr out,
    handleTraffic r = (FillGatewayContext eui :: tr, out) /\ length eui = 8%nat.
Proof.
  intros Hm. apply spec_matches_eui_dec in Hm.
  destruct (FindStringSubmatch_cases (id r))
    as [Hnone | (digits & Hfound & _ & Hlen & Hall)]; [contradiction |].
  destruct (hex_DecodeString_total 8 digits Hlen Hall) as (eui & Heui & Hn).
  unfold handleTraffic. rewrite Hfound, Heui.
  exists eui.
  destruct (fillGatewayContext r) as [ids | err];
    [| eexists _, _; split; [reflexivity | exact Hn]].
  destruct (_ && _); [eexists _, _; split; [reflexivity | exact Hn] |].
  destruct (connect r); [eexists _, _; split; [reflexivity | exact Hn] |].
  destruct (upgrade r); [eexists _, _; split; [reflexivity | exact Hn] |].
  destruct (readLoop (turns r)) as [tr [| [err |]]];
    eexists _, _; (split; [reflexivity | exact Hn]).
Qed.

(** C10: a traffic request whose id is not [eui-] followed by 16
    hexadecimal digits fails with the invalid-gateway-id error, and the
    handler has made no call by then: the gateway context is not filled, no
    connection is made and the websocket is not upgraded. *)
Theorem invalid_gateway_id_rejected (r : request) :
  ~ spec_matches_eui (id r) ->
  handleTraffic r = ([], Returned (Some (errGatewayID (id r)))).
Proof.
  intros Hno. unfold handleTraffic.
  destruct (FindStringSubmatch_cases (id r)) as [-> | (digits & Hfound & _)];
    [reflexivity |].
  exfalso. apply Hno, spec_matches_eui_dec. rewrite Hfound. discriminate.
Qed.

Lemma invalid_gateway_id_rejected_witness :
  handleTraffic {|
    id := "eui-0123456789abcdeg"; auth := "key"; AllowUnauthenticated := true;
    fillGatewayContext := Ok {| GatewayId := "gtw"; Eui := [] |};
    connect := None; upgrade := None; turns := [] |}
  = ([], Returned (Some (errGatewayID "eui-0123456789abcdeg"))).
Proof.
  apply (invalid_gateway_id_rejected {|
    id := "eui-0123456789abcdeg"; auth := "key"; AllowUnauthenticated := true;
    fillGatewayContext := Ok {| GatewayId := "gtw"; Eui := [] |};
    connect := None; upgrade := None; turns := [] |}).
  rewrite spec_matches_eui_dec. vm_compute. intros H. apply H. reflexivity.
Defined.

(** A well-formed id goes on to the server, with the decoded EUI. *)
Example valid_gateway_id :
  handleTraffic {|
    id := "eui-0123456789abCDEF"; auth := ""; AllowUnauthenticated := false;
    fillGatewayContext := Ok {| GatewayId := "gtw"; Eui := [] |};
    connect := None; upgrade := None; turns := [] |}
  = ([FillGatewayContext [1; 35; 69; 103; 137; 171; 205; 239]],
     Returned (Some (errNoAuthProvided "gtw"))).
Proof. reflexivity. Qed.

Example gateway_ids_rejected :
  euiHexPattern_FindStringSubmatch "eui-0123456789abcde" = []
  /\ euiHexPattern_FindStringSubmatch "eui-0123456789abcdef0" = []
  /\ euiHexPattern_FindStringSubmatch "EUI-0123456789abcdef" = []
  /\ euiHexPattern_FindStringSubmatch "" = [].
Proof. repeat split; reflexivity. Qed.

End GatewayID.

(** ** The inbound read loop *)
Section ReadLoop.
Import ws.

(** The handlers of control frames only log and write pongs. *)
Lemma controlFrames_effects frames :
  Forall (fun e => control_effect e = true) (fst (controlFrames frames)).
Proof.
  induction frames as [| [[err |] |] rest IH]; cbn [controlFrames].
  - constructor.
  - repeat constructor.
  - destruct (controlFrames rest) as [tr cerr]. cbn [fst] in *.
    repeat (constructor; [reflexivity |]). exact IH.
  - destruct (controlFrames rest) as [tr cerr]. cbn [fst] in *.
    constructor; [reflexivity | exact IH].
Qed.

(** The effects of one turn: a failed check with the warning and the
    disconnect; or a passed check, the handling of control frames, the
    return of the read and what follows it. *)
Lemma iteration_shape t :
  (exists err,
     iteration t
     = ([Require (Some err); Log Warn "Terminate connection"; Disconnect err],
        Some err))
  \/ exists cf answer tail,
       fst (iteration t) = Require None :: cf ++ ReadMessage answer :: tail
       /\ Forall (fun e => control_effect e = true) cf
       /\ ((exists err,
              answer = Err err /\ snd (iteration t) = Some err
              /\ tail = [Log Debug "Failed to read message"])
           \/ exists data,
                answer = Ok data /\ read t = Ok data
                /\ (tail = [HandleUp data]
                    \/ (exists downstream err,
                          snd (iteration t) = Some err
                          /\ tail = [HandleUp data;
                                     Log Info "Send downstream message";
                                     WriteMessage TextMessage downstream;
                                     Log Warn "Failed to send message downstream";
                                     Disconnect err])
                    \/ exists downstream,
                         snd (iteration t) = None
                         /\ tail = [HandleUp data;
                                    Log Info "Send downstream message";
                                    WriteMessage TextMessage downstream])).
Proof.
  unfold iteration, readMessage.
  destruct (require t) as [err |]; [left; eexists; reflexivity | right].
  pose proof (controlFrames_effects (control t)) as Hcf.
  destruct (controlFrames (control t)) as [cf [cerr |]]; cbn [fst] in Hcf.
  - exists cf, (Err cerr), [Log Debug "Failed to read message"].
    cbn [fst snd]. rewrite <- app_assoc. split; [reflexivity |].
    split; [exact Hcf |]. left. eauto.
  - destruct (read t) as [data | rerr].
    + destruct (handleUp t) as [[downstream |] | herr];
        [destruct (write t) as [werr |] |..];
        eexists cf, (Ok data), _; cbn [fst snd]; rewrite <- app_assoc;
        (split; [reflexivity |]); (split; [exact Hcf |]); right;
        exists data; (split; [reflexivity |]); (split; [reflexivity |]);
        eauto 8.
    + exists cf, (Err rerr), [Log Debug "Failed to read message"].
      cbn [fst snd]. rewrite <- app_assoc. split; [reflexivity |].
      split; [exact Hcf |]. left. eauto.
Qed.

(** Where a position of such a turn lies. *)
Lemma lookup_turn cf x tail i (e : effect) :
  (Require None :: cf ++ x :: tail) !! i = Some e ->
  (i = 0%nat /\ e = Require None)
  \/ (exists k, i = S k /\ cf !! k = Some e)
  \/ (i = S (length cf) /\ e = x)
  \/ (exists k, i = S (S (length cf + k)) /\ tail !! k = Some e).
Proof.
  destruct i as [| i].
  - intros [= <-]. left. auto.
  - intros H. change ((cf ++ x :: tail) !! i = Some e) in H.
    apply lookup_app_Some in H as [H | [Hlen H]].
    + right. left. eauto.
    + destruct (i - length cf)%nat as [| k] eqn:Hk; cbn in H.
      * injection H as <-. right. right. left. split; [lia | reflexivity].
      * right. right. right. exists k. split; [lia | exact H].
Qed.

Lemma lookup_turn_read cf (x : effect) tail :
  (Require None :: cf ++ x :: tail) !! S (length cf) = Some x.
Proof.
  change ((cf ++ x :: tail) !! length cf = Some x).
  rewrite lookup_app_r by lia. rewrite Nat.sub_diag. reflexivity.
Qed.

(** The positions up to the read lie behind the check of the turn. *)
Lemma checked_head cf rest i :
  Forall (fun e => control_effect e = true) cf ->
  (1 <= i <= S (length cf))%nat ->
  checked (Require None :: cf ++ rest) i.
Proof.
  intros Hcf Hi. exists 0%nat. split; [lia |]. split; [reflexivity |].
  intros k e Hk Hl. destruct k as [| k]; [lia |].
  change ((cf ++ rest) !! k = Some e) in Hl.
  rewrite lookup_app_l in Hl by lia.
  exact (Forall_lookup_1 _ _ _ _ Hcf Hl).
Qed.

Lemma checked_app_l tr tr' i :
  checked tr i -> (i <= length tr)%nat -> checked (tr ++ tr') i.
Proof.
  intros (j & Hj & Hreq & Hbetween) Hi. exists j. split; [exact Hj |].
  split; [rewrite lookup_app_l by lia; exact Hreq |].
  intros k e Hk Hl. rewrite lookup_app_l in Hl by lia. eauto.
Qed.

Lemma checked_app_r chunk tr i :
  checked tr i -> checked (chunk ++ tr) (length chunk + i).
Proof.
  intros (j & Hj & Hreq & Hbetween). exists (length chunk + j)%nat.
  split; [lia |]. split.
  - rewrite lookup_app_r by lia.
    replace (length chunk + j - length chunk)%nat with j by lia. exact Hreq.
  - intros k e Hk Hl. rewrite lookup_app_r in Hl by lia.
    apply (Hbetween (k - length chunk)%nat e); [lia | exact Hl].
Qed.

Ltac tail_cases Htail :=
  destruct Htail as
    [(rerr & -> & Hret & ->)
    | (rdata & -> & Hread
       & [-> | [(downstream & werr & Hret & ->) | (downstream & Hret & ->)]])].

Ltac short_list k H :=
  cbn in H;
  first [ discriminate H
        | destruct k as [| k];
          [cbn in H; try discriminate H | short_list k H] ].

(** In one turn, the return of the read and the handling of control frames
    lie behind the check of the turn, which passed. *)
Lemma iteration_checked t i e :
  fst (iteration t) !! i = Some e ->
  (exists answer, e = ReadMessage answer) \/ control_effect e = true ->
  checked (fst (iteration t)) i.
Proof.
  intros H He.
  destruct (iteration_shape t)
    as [(err & Hit) | (cf & answer & tail & Hit & Hcf & Htail)].
  - rewrite Hit in H. cbn [fst] in H. exfalso.
    short_list i H; injection H as <-;
      destruct He as [[a [=]] | [=]].
  - rewrite Hit in H |- *.
    apply lookup_turn in H
      as [[-> ->] | [(k & -> & Hk) | [[-> ->] | (k & -> & Hk)]]].
    + exfalso. destruct He as [[a [=]] | [=]].
    + apply checked_head; [exact Hcf |].
      apply lookup_lt_Some in Hk. lia.
    + apply checked_head; [exact Hcf | lia].
    + exfalso. tail_cases Htail; short_list k Hk; injection Hk as <-;
        destruct He as [[a [=]] | [=]].
Qed.

(** In one turn, the message handed on is the one just read. *)
Lemma iteration_handles_read t i data :
  fst (iteration t) !! i = Some (HandleUp data) ->
  exists j, i = S j /\ fst (iteration t) !! j = Some (ReadMessage (Ok data)).
Proof.
  intros H.
  destruct (iteration_shape t)
    as [(err & Hit) | (cf & answer & tail & Hit & Hcf & Htail)].
  - rewrite Hit in H. cbn [fst] in H. short_list i H.
  - rewrite Hit in H |- *.
    apply lookup_turn in H
      as [[-> [=]] | [(k & -> & Hk) | [[-> [=]] | (k & -> & Hk)]]].
    + exfalso. pose proof (Forall_lookup_1 _ _ _ _ Hcf Hk) as Hc.
      discriminate Hc.
    + tail_cases Htail; short_list k Hk; injection Hk as ->;
        exists (S (length cf)); (split; [f_equal; lia |]);
        apply lookup_turn_read.
Qed.

(** A turn whose check fails consists of the check, the warning and the
    disconnect. *)
Lemma iteration_require_failure t i err :
  fst (iteration t) !! i = Some (Require (Some err)) ->
  i = 0%nat
  /\ iteration t
     = ([Require (Some err); Log Warn "Terminate connection"; Disconnect err],
        Some err).
Proof.
  intros H.
  destruct (iteration_shape t)
    as [(err' & Hit) | (cf & answer & tail & Hit & Hcf & Htail)].
  - rewrite Hit in H |- *. cbn [fst] in H. short_list i H.
    injection H as <-. split; reflexivity.
  - rewrite Hit in H. exfalso.
    apply lookup_turn in H
      as [[-> [=]] | [(k & -> & Hk) | [[-> [=]] | (k & -> & Hk)]]].
    + pose proof (Forall_lookup_1 _ _ _ _ Hcf Hk) as Hc. discriminate Hc.
    + tail_cases Htail; short_list k Hk.
Qed.

(** The loop, one turn at a time. *)
Lemma readLoop_cons t rest :
  readLoop (t :: rest)
  = match snd (iteration t) with
    | Some err => (fst (iteration t), Returned (Some err))
    | None => (fst (iteration t) ++ fst (readLoop rest), snd (readLoop rest))
    end.
Proof.
  cbn [readLoop]. destruct (iteration t) as [tr [err |]]; [reflexivity |].
  destruct (readLoop rest); reflexivity.
Qed.

(** The return of every read, and the handling of every control frame, lie
    behind the check of their turn, which passed. *)
Lemma readLoop_checked turns i e :
  fst (readLoop turns) !! i = Some e ->
  (exists answer, e = ReadMessage answer) \/ control_effect e = true ->
  checked (fst (readLoop turns)) i.
Proof.
  revert i. induction turns as [| t rest IH]; intros i H He; [discriminate H |].
  rewrite readLoop_cons in H |- *.
  destruct (snd (iteration t)) as [err |]; cbn [fst] in H |- *.
  - exact (iteration_checked t i e H He).
  - apply lookup_app_Some in H as [H | [Hlen H]].
    + apply checked_app_l; [exact (iteration_checked t i e H He) |].
      apply lookup_lt_Some in H. lia.
    + replace i with (length (fst (iteration t))
                      + (i - length (fst (iteration t))))%nat by lia.
      apply checked_app_r. exact (IH _ H He).
Qed.

(** A message is handed to the formatter right after the read returned it. *)
Lemma handle_after_read turns i data :
  fst (readLoop turns) !! i = Some (HandleUp data) ->
  exists j, i = S j /\ fst (readLoop turns) !! j = Some (ReadMessage (Ok data)).
Proof.
  revert i. induction turns as [| t rest IH]; intros i H; [discriminate H |].
  rewrite readLoop_cons in H |- *.
  destruct (snd (iteration t)) as [err |]; cbn [fst] in H |- *.
  - exact (iteration_handles_read t i data H).
  - apply lookup_app_Some in H as [H | [Hlen H]].
    + destruct (iteration_handles_read t i data H) as (j & -> & Hj).
      exists j. split; [reflexivity |].
      rewrite lookup_app_l; [exact Hj |]. apply lookup_lt_Some in Hj. lia.
    + destruct (IH _ H) as (j & Hi & Hj).
      exists (length (fst (iteration t)) + j)%nat. split; [lia |].
      rewrite lookup_app_r by lia.
      replace (length (fst (iteration t)) + j - length (fst (iteration t)))%nat
        with j by lia.
      exact Hj.
Qed.

(** A check that fails is followed by the warning and the disconnect, and
    by nothing else: the loop has returned the error. *)
Lemma require_failure_ends_loop turns i err :
  fst (readLoop turns) !! i = Some (Require (Some err)) ->
  drop (S i) (fst (readLoop turns))
  = [Log Warn "Terminate connection"; Disconnect err]
  /\ snd (readLoop turns) = Returned (Some err).
Proof.
  revert i. induction turns as [| t rest IH]; intros i H; [discriminate H |].
  rewrite readLoop_cons in H |- *.
  destruct (snd (iteration t)) as [err' |] eqn:Hsnd; cbn [fst snd] in H |- *.
  - destruct (iteration_require_failure t i err H) as [-> Hit].
    rewrite Hit in Hsnd |- *. injection Hsnd as <-. split; reflexivity.
  - apply lookup_app_Some in H as [H | [Hlen H]].
    + destruct (iteration_require_failure t i err H) as [_ Hit].
      rewrite Hit in Hsnd. discriminate Hsnd.
    + destruct (IH _ H) as [Hdrop Hout]. split; [| exact Hout].
      rewrite drop_app_ge by lia.
      replace (S i - length (fst (iteration t)))%nat
        with (S (i - length (fst (iteration t)))) by lia.
      exact Hdrop.
Qed.

(** C8: in the trace of the read loop, the return of each read lies behind
    a rate-limit check that passed in the same turn, with nothing but the
    handling of ping and pong frames between the check and the read; the
    control frames themselves are handled behind that check; each message
    handed on is the one the read just returned; and a check that fails is
    followed by the warning and the disconnect with its error only, the
    loop returning that error. *)
Theorem read_loop_rate_limited (turns : list turn) :
  (forall i answer,
     fst (readLoop turns) !! i = Some (ReadMessage answer) ->
     checked (fst (readLoop turns)) i)
  /\ (forall i e,
        fst (readLoop turns) !! i = Some e -> control_effect e = true ->
        checked (fst (readLoop turns)) i)
  /\ (forall i data,
        fst (readLoop turns) !! i = Some (HandleUp data) ->
        exists j, i = S j
                  /\ fst (readLoop turns) !! j = Some (ReadMessage (Ok data)))
  /\ (forall i err,
        fst (readLoop turns) !! i = Some (Require (Some err)) ->
        drop (S i) (fst (readLoop turns))
        = [Log Warn "Terminate connection"; Disconnect err]
        /\ snd (readLoop turns) = Returned (Some err)).
Proof.
  split; [| split; [| split]].
  - intros i answer H. apply (readLoop_checked turns i _ H). left. eauto.
  - intros i e H He. apply (readLoop_checked turns i e H). now right.
  - intros i data. apply handle_after_read.
  - intros i err. apply require_failure_ends_loop.
Qed.

(** A read behind a ping and a pong, and a check that fails. *)
Lemma read_loop_rate_limited_witness :
  checked (fst (readLoop ping_turns)) 4
  /\ checked (fst (readLoop ping_turns)) 2
  /\ drop 6 (fst (readLoop two_turns))
     = [Log Warn "Terminate connection";
        Disconnect (collaborator "rate limited")]
  /\ snd (readLoop two_turns) = Returned (Some (collaborator "rate limited")).
Proof.
  destruct (read_loop_rate_limited ping_turns) as (Hread & Hcontrol & _ & _).
  destruct (read_loop_rate_limited two_turns) as (_ & _ & _ & Hfail).
  split; [| split].
  - apply (Hread 4%nat (Ok "up")). reflexivity.
  - apply (Hcontrol 2%nat (WriteMessage PongMessage "")); reflexivity.
  - apply (Hfail 5%nat (collaborator "rate limited")). reflexivity.
Defined.

Example two_turns_trace :
  readLoop two_turns
  = ([Require None; ReadMessage (Ok "up"); HandleUp "up";
      Log Info "Send downstream message"; WriteMessage TextMessage "down";
      Require (Some (collaborator "rate limited"));
      Log Warn "Terminate connection";
      Disconnect (collaborator "rate limited")],
     Returned (Some (collaborator "rate limited"))).
Proof. reflexivity. Qed.

(** With control frames: the ping is answered and the pong noted inside the
    read; a pong that cannot be written comes back as the read's error. *)
Example ping_turns_trace :
  readLoop ping_turns
  = ([Require None;
      Log Debug "Received ping from gateway, send pong";
      WriteMessage PongMessage "";
      Log Debug "Received pong from gateway";
      ReadMessage (Ok "up"); HandleUp "up";
      Require None;
      Log Debug "Received ping from gateway, send pong";
      WriteMessage PongMessage "";
      Log Warn "Failed to send pong";
      ReadMessage (Err (collaborator "broken pipe"));
      Log Debug "Failed to read message"],
     Returned (Some (collaborator "broken pipe"))).
Proof. reflexivity. Qed.

End ReadLoop.

(** ** Downlinks in the writer goroutine *)
Section Writer.
Import ws.

(** C9, as stated, fails: a queued downlink whose timestamp cannot be
    converted to concentrator time, or whose encoding fails, leaves a
    warning in the log and nothing else; no effect of its handling carries
    an error, and the goroutine goes on to the next event. *)
Lemma downlink_dropped_with_log_only :
  let down := {| RawPayload := "Ymxhamthc25kJ3M=="; Timestamp := 1553300787;
                 CorrelationIds := ["correlation1"] |} in
  handleDown down None (Ok "dnmsg") None
  = ([TimeFromTimestampTime 1553300787; Log Warn "No clock synchronization"],
     None)
  /\ handleDown down (Some 1554300787) (Err (collaborator "encoding")) None
     = ([TimeFromTimestampTime 1553300787; FromDownlink down 1554300787;
         Log Warn "Failed to marshal downlink message"], None)
  /\ (forall e, e ∈ fst (handleDown down None (Ok "dnmsg") None) ->
      reports e = None)
  /\ writer [Down down None (Ok "dnmsg") None; PingTick None]
     = ([TimeFromTimestampTime 1553300787; Log Warn "No clock synchronization";
         WriteMessage PingMessage ""], Running).
Proof.
  cbn. repeat split.
  intros e He. rewrite !elem_of_cons, elem_of_nil in He.
  destruct He as [-> | [-> | []]]; reflexivity.
Qed.

Lemma writer_Down down t dnmsg w rest :
  writer (Down down t dnmsg w :: rest)
  = match snd (handleDown down t dnmsg w) with
    | Some _ => (fst (handleDown down t dnmsg w) ++ [Close], Returned None)
    | None => (fst (handleDown down t dnmsg w) ++ fst (writer rest),
               snd (writer rest))
    end.
Proof.
  cbn [writer]. destruct (handleDown down t dnmsg w) as [tr [err |]];
    [reflexivity |].
  destruct (writer rest). reflexivity.
Qed.

(** C9, amended: when the timestamp of a queued downlink cannot be converted
    (no clock synchronization) or its encoding fails, the goroutine logs a
    warning, writes nothing to the websocket, hands no error on, and goes on
    with the next event; when the websocket write fails, the error is passed
    to [conn.Disconnect] and the goroutine stops. *)
Theorem untransmitted_downlink down t dnmsg w rest :
  (t = None \/ (exists err, dnmsg = Err err) ->
   exists tr msg,
     writer (Down down t dnmsg w :: rest)
     = (tr ++ fst (writer rest), snd (writer rest))
     /\ Log Warn msg ∈ tr
     /\ forall e, e ∈ tr ->
          reports e = None /\ forall ty data, e <> WriteMessage ty data)
  /\ (forall ct msg err,
        t = Some ct -> dnmsg = Ok msg -> w = Some err ->
        exists tr,
          writer (Down down t dnmsg w :: rest)
          = (tr ++ [Disconnect err; Close], Returned None)
          /\ WriteMessage TextMessage msg ∈ tr).
Proof.
  split.
  - intros Hfail. rewrite writer_Down.
    destruct t as [ct |].
    + destruct Hfail as [Hn | (err & ->)]; [discriminate |].
      cbn [handleDown fst snd].
      eexists _, _. split; [reflexivity |]. split.
      * do 2 apply list_elem_of_further. apply list_elem_of_here.
      * intros e He. rewrite !elem_of_cons, elem_of_nil in He.
        destruct He as [-> | [-> | [-> | []]]]; split;
          (reflexivity || (intros; discriminate)).
    + cbn [handleDown fst snd].
      eexists _, _. split; [reflexivity |]. split.
      * apply list_elem_of_further, list_elem_of_here.
      * intros e He. rewrite !elem_of_cons, elem_of_nil in He.
        destruct He as [-> | [-> | []]]; split;
          (reflexivity || (intros; discriminate)).
  - intros ct msg err -> -> ->. rewrite writer_Down. cbn [handleDown fst snd].
    exists [TimeFromTimestampTime (Timestamp down); FromDownlink down ct;
            WriteMessage TextMessage msg;
            Log Warn "Failed to send downlink message"].
    split; [reflexivity |].
    do 2 apply list_elem_of_further. apply list_elem_of_here.
Qed.

Lemma untransmitted_downlink_witness :
  exists tr msg,
    writer [Down {| RawPayload := "pdu"; Timestamp := 7; CorrelationIds := [] |}
              None (Ok "dnmsg") None; ContextDone]
    = (tr ++ [Close], Returned None)
    /\ Log Warn msg ∈ tr
    /\ forall e, e ∈ tr ->
         reports e = None /\ forall ty data, e <> WriteMessage ty data.
Proof.
  destruct (untransmitted_downlink
              {| RawPayload := "pdu"; Timestamp := 7; CorrelationIds := [] |}
              None (Ok "dnmsg") None [ContextDone]) as (H & _).
  apply H. left. reflexivity.
Defined.

(** A downlink that is encoded and written is the only one on the wire. *)
Example downlink_sent :
  handleDown {| RawPayload := "pdu"; Timestamp := 7; CorrelationIds := [] |}
    (Some 9) (Ok "dnmsg") None
  = ([TimeFromTimestampTime 7;
      FromDownlink {| RawPayload := "pdu"; Timestamp := 7; CorrelationIds := [] |} 9;
      WriteMessage TextMessage "dnmsg"], None).
Proof. reflexivity. Qed.

End Writer.

(** ** More on the RX1 data rate *)
Section Rx1More.
Import ttnpb band.

(** X1: The derived data rate is a row of the band's own table: for every table
    of the two files, every uplink index of the table and every offset the
    table accepts, the RX1 derivation returns an index that [DataRates]
    defines. *)
Lemma rx1_result_is_defined_data_rate b idx offset dwellTime :
  b ∈ tables ->
  is_Some (DataRates b !! idx) ->
  0 <= offset <= 7 ->
  (ID b = CN_470_510_26_A -> offset <= 5) ->
  exists r, Rx1DataRate b idx offset dwellTime = Returns (Ok r)
            /\ is_Some (DataRates b !! r).
Proof.
  intros Hb Hidx Hoff Hcn. unfold tables in Hb.
  rewrite !elem_of_cons, elem_of_nil in Hb.
  destruct Hb as [-> | [-> | [-> | [-> | []]]]].
  1-3: destruct (as923_rx1_total idx offset dwellTime) as (r & Hr & Hlo & Hhi);
    exists r; (split; [exact Hr |]);
    apply as923_data_rates;
    assert (Hmin : 0 <= spec_min_data_rate dwellTime)
      by (destruct dwellTime; cbv; discriminate);
    unfold DATA_RATE_7 in Hhi; lia.
  apply cn470_data_rates in Hidx. specialize (Hcn eq_refl).
  exists (Z.max 0 (idx - offset)). split.
  - apply cn470_rx1_in_bounds; lia.
  - apply cn470_data_rates. lia.
Qed.

Lemma rx1_result_is_defined_data_rate_witness :
  exists r, Rx1DataRate AS_923_3_RP2_v1_0_2 DATA_RATE_7 7 true = Returns (Ok r)
            /\ is_Some (DataRates AS_923_3_RP2_v1_0_2 !! r).
Proof.
  apply (rx1_result_is_defined_data_rate AS_923_3_RP2_v1_0_2 DATA_RATE_7 7 true).
  - unfold tables. do 2 apply list_elem_of_further. apply list_elem_of_here.
  - exists (FSKDataRate 50000 (DwellTimeMaxMACPayloadSize 230 250)).
    vm_compute. reflexivity.
  - lia.
  - vm_compute. discriminate.
Defined.

(** X2: Dwell time only raises the floor of the AS923 derivation: on every
    input, the result under dwell time is the larger of DATA_RATE_2 and the
    result without dwell time. *)
Lemma as923_rx1_dwell_time_floor idx offset :
  exists r,
    as923RP2102_Rx1DataRate idx offset false = Returns (Ok r)
    /\ as923RP2102_Rx1DataRate idx offset true
       = Returns (Ok (Z.max DATA_RATE_2 r)).
Proof.
  unfold as923RP2102_Rx1DataRate.
  set (si := int8 (int8 idx - _)).
  change (int8 DATA_RATE_2) with 2. change (int8 DATA_RATE_0) with 0.
  unfold DATA_RATE_0, DATA_RATE_2, DATA_RATE_7.
  destruct (Z.leb_spec si 0), (Z.leb_spec si 2), (Z.leb_spec 7 si);
    try lia; eexists; (split; [reflexivity |]); do 2 f_equal; lia.
Qed.

(** X3: On the values of the enumerations the AS923 derivation is monotone: a
    higher uplink index never derives a lower data rate, and among the
    offsets 0 to 5 a larger offset never derives a higher one. *)
Lemma as923_rx1_monotone idx idx' offset offset' dwellTime :
  0 <= idx <= idx' -> idx' <= 15 ->
  0 <= offset <= offset' -> offset' <= 5 ->
  exists lo mid hi,
    as923RP2102_Rx1DataRate idx offset' dwellTime = Returns (Ok lo)
    /\ as923RP2102_Rx1DataRate idx offset dwellTime = Returns (Ok mid)
    /\ as923RP2102_Rx1DataRate idx' offset dwellTime = Returns (Ok hi)
    /\ lo <= mid <= hi.
Proof.
  intros Hidx Hidx' Hoff Hoff'.
  rewrite !as923_rx1_rule_enum by lia.
  eexists _, _, _. do 3 (split; [reflexivity |]).
  unfold spec_clamp, spec_effective_offset.
  destruct (Z.leb_spec offset 5), (Z.leb_spec offset' 5); lia.
Qed.

Lemma as923_rx1_monotone_witness :
  exists lo mid hi,
    as923RP2102_Rx1DataRate 3 4 false = Returns (Ok lo)
    /\ as923RP2102_Rx1DataRate 3 1 false = Returns (Ok mid)
    /\ as923RP2102_Rx1DataRate 6 1 false = Returns (Ok hi)
    /\ lo <= mid <= hi.
Proof. apply (as923_rx1_monotone 3 6 1 4 false); lia. Defined.

(** X4: The offsets 6 and 7 stand for the effective offsets -1 and -2: on the
    uplink indices of the table they raise the data rate by one and by two
    steps, up to DATA_RATE_7. *)
Lemma as923_rx1_negative_offsets idx :
  0 <= idx <= 7 ->
  as923RP2102_Rx1DataRate idx 6 false = Returns (Ok (Z.min 7 (idx + 1)))
  /\ as923RP2102_Rx1DataRate idx 7 false = Returns (Ok (Z.min 7 (idx + 2))).
Proof.
  intros Hidx. rewrite !as923_rx1_rule_enum by lia.
  unfold spec_clamp, spec_effective_offset, spec_min_data_rate,
    DATA_RATE_0, DATA_RATE_7.
  cbn [Z.leb Z.compare Pos.compare Pos.compare_cont].
  split; do 2 f_equal; lia.
Qed.

Lemma as923_rx1_negative_offsets_witness :
  as923RP2102_Rx1DataRate 4 6 false = Returns (Ok (Z.min 7 (4 + 1)))
  /\ as923RP2102_Rx1DataRate 4 7 false = Returns (Ok (Z.min 7 (4 + 2))).
Proof. apply (as923_rx1_negative_offsets 4). lia. Defined.

Lemma int8_periodic x k : int8 (x + 256 * k) = int8 x.
Proof.
  unfold int8. f_equal.
  replace (x + 256 * k + 128) with (x + 128 + k * 256) by lia.
  apply Z.mod_add. discriminate.
Qed.

(** X5: The AS923 derivation reads its two integer arguments through [int8]:
    it only sees their low eight bits, so arguments that differ by
    multiples of 256 derive the same data rate. *)
Lemma as923_rx1_low_byte_only idx offset dwellTime k m :
  as923RP2102_Rx1DataRate (idx + 256 * k) (offset + 256 * m) dwellTime
  = as923RP2102_Rx1DataRate idx offset dwellTime.
Proof.
  unfold as923RP2102_Rx1DataRate. rewrite !int8_periodic. reflexivity.
Qed.

Lemma cn470510DownlinkDRTable_row idx :
  0 <= idx <= 5 ->
  index cn470510DownlinkDRTable idx
  = Returns ((fun offset => Z.max DATA_RATE_0 (idx - offset)) <$> seqZ 0 6).
Proof.
  intros Hi. unfold index, cn470510DownlinkDRTable.
  destruct (Z.ltb_spec idx 0) as [? | _]; [lia |].
  rewrite list_lookup_fmap.
  assert (Hrow : seqZ 0 6 !! Z.to_nat idx = Some idx)
    by (apply lookup_seqZ; lia).
  rewrite Hrow. reflexivity.
Qed.

(** X6: The CN470-510-26A derivation panics exactly on a negative index with an
    offset of at most 5, and on an index from 0 to 5 with a negative offset:
    its two guards only bound the arguments from above. *)
Lemma cn470_rx1_panics_iff idx offset dwellTime :
  cn47051026A_Rx1DataRate idx offset dwellTime = Panics
  <-> (idx < 0 /\ offset <= 5) \/ (0 <= idx <= 5 /\ offset < 0).
Proof.
  unfold cn47051026A_Rx1DataRate, DATA_RATE_5.
  destruct (Z.ltb_spec 5 idx) as [Hi | Hi]; [split; [discriminate | lia] |].
  destruct (Z.ltb_spec 5 offset) as [Ho | Ho]; [split; [discriminate | lia] |].
  destruct (Z_lt_le_dec idx 0) as [Hneg | Hpos].
  - unfold index at 1. destruct (Z.ltb_spec idx 0); [| lia].
    split; [intros _; left; lia | reflexivity].
  - rewrite cn470510DownlinkDRTable_row by lia.
    unfold index. destruct (Z.ltb_spec offset 0) as [Hon | Hop].
    + split; [intros _; right; lia | reflexivity].
    + rewrite list_lookup_fmap.
      assert (Hcol : @lookup nat Z (list Z) _ (Z.to_nat offset) (seqZ 0 6)
                     = Some offset)
        by (apply lookup_seqZ; lia).
      rewrite Hcol. cbn. split; [discriminate | lia].
Qed.

End Rx1More.

(** ** More on the band registry *)
Section RegistryMore.
Import ttnpb band.

(** Case analysis on the entry of a region in [All]. *)
Ltac region_cases H :=
  unfold All in H; apply elem_of_list_to_map_2 in H;
  rewrite !elem_of_cons, elem_of_nil in H;
  repeat (destruct H as [H | H]; [injection H as -> -> |]);
  [.. | destruct H].

(** X7: With the registry of the sources, [GetLatest] finds a table for eleven
    regions; it fails for every other identifier, among them the four
    CN470-510 regions that only have RP002 tables. *)
Lemma get_latest_regions id :
  (exists band, GetLatest All id = Ok band)
  <-> id ∈ [AS_923; AU_915_928; CN_470_510; CN_779_787; EU_433; EU_863_870;
            IN_865_867; ISM_2400; KR_920_923; RU_864_870; US_902_928].
Proof.
  unfold GetLatest, latestSupportedVersion. rewrite Get_registered.
  unfold registered. split.
  - intros [band Hband].
    destruct (All !! id) as [versions |] eqn:Hid; [| discriminate].
    region_cases Hid; vm_compute in Hband; try discriminate Hband;
      rewrite !elem_of_cons; auto 12.
  - rewrite !elem_of_cons, elem_of_nil.
    intros H.
    repeat (destruct H as [-> | H]; [eexists; vm_compute; reflexivity |]).
    destruct H.
Qed.

(** Every region of the registry has a table for at least one version: a
    region for which [Get] fails on every version is an unknown region. *)
Lemma known_region_has_a_table id :
  is_Some (All !! id) <-> exists version band, Get All id version = Ok band.
Proof.
  split.
  - intros [versions Hid]. pose proof Hid as Hcase.
    region_cases Hcase;
      first [ (exists RP002_V1_0_0; eexists; vm_compute; reflexivity)
            | (exists RP001_V1_1_REV_B; eexists; vm_compute; reflexivity) ].
  - intros (version & band & Hget). unfold Get in Hget.
    destruct (All !! id); [eexists; reflexivity | discriminate].
Qed.

End RegistryMore.

(** ** More on the inbound read loop *)
Section ReadLoopMore.
Import ws.

Lemma turn_passes_iteration t :
  turn_passes t = match snd (iteration t) with None => true | Some _ => false end.
Proof.
  unfold turn_passes, iteration, readMessage.
  destruct (require t); [reflexivity |].
  destruct (controlFrames (control t)) as [cf [cerr |]]; cbn [snd];
    [reflexivity |].
  destruct (read t); [| reflexivity].
  destruct (handleUp t) as [[] |]; [destruct (write t) |..]; reflexivity.
Qed.

Lemma readLoop_outcome turns :
  (snd (readLoop turns) = Running <-> forallb turn_passes turns = true)
  /\ (snd (readLoop turns) <> Running ->
      exists err, snd (readLoop turns) = Returned (Some err)).
Proof.
  induction turns as [| t rest [IHrun IHerr]].
  - split; [split; reflexivity | intros H; now contradiction H].
  - rewrite readLoop_cons. cbn [forallb]. rewrite turn_passes_iteration.
    destruct (snd (iteration t)) as [err |]; cbn [snd andb].
    + split; [split; discriminate | intros _; eexists; reflexivity].
    + exact (conj IHrun IHerr).
Qed.

(** X8: The read loop never ends in peace: it is still running exactly when
    every turn passed, and otherwise it has returned an error, never nil. *)
Theorem read_loop_ends_only_with_error turns :
  (snd (readLoop turns) = Running <-> forallb turn_passes turns = true)
  /\ (snd (readLoop turns) <> Running ->
      exists err, snd (readLoop turns) = Returned (Some err)).
Proof. exact (readLoop_outcome turns). Qed.

Lemma read_loop_ends_only_with_error_witness :
  exists err, snd (readLoop two_turns) = Returned (Some err).
Proof.
  destruct (read_loop_ends_only_with_error two_turns) as [_ H].
  apply H. discriminate.
Defined.

(** X9: Turns after the one that ended the loop are never consulted, and the
    turns after a prefix that passed continue its trace. *)
Lemma readLoop_app turns more :
  readLoop (turns ++ more)
  = if forallb turn_passes turns
    then (fst (readLoop turns) ++ fst (readLoop more), snd (readLoop more))
    else readLoop turns.
Proof.
  induction turns as [| t rest IH].
  - cbn. destruct (readLoop more); reflexivity.
  - rewrite <- app_comm_cons, !readLoop_cons, IH. cbn [forallb].
    rewrite turn_passes_iteration.
    destruct (snd (iteration t)) as [err |]; cbn [andb]; [reflexivity |].
    destruct (forallb turn_passes rest); cbn [fst snd].
    + now rewrite app_assoc.
    + destruct (readLoop rest); reflexivity.
Qed.

(** The handling of control frames reads nothing and hands nothing on. *)
Lemma control_effects_silent cf :
  Forall (fun e => control_effect e = true) cf ->
  received cf = [] /\ handled cf = [].
Proof.
  induction 1 as [| e cf He _ [IHr IHh]]; [split; reflexivity |].
  unfold received, handled in *. cbn [omap list_omap].
  rewrite IHr, IHh.
  destruct e as [| | | | | | l msg | | | | | | | []]; try discriminate He;
    split; reflexivity.
Qed.

(** What one turn reads and hands on. *)
Lemma iteration_received t :
  handled (fst (iteration t)) = received (fst (iteration t))
  /\ (received (fst (iteration t)) = []
      \/ exists data, read t = Ok data /\ received (fst (iteration t)) = [data])
  /\ (snd (iteration t) = None ->
      exists data, read t = Ok data /\ received (fst (iteration t)) = [data]).
Proof.
  destruct (iteration_shape t)
    as [(err & Hit) | (cf & answer & tail & Hit & Hcf & Htail)].
  - rewrite Hit. cbn. split; [reflexivity |]. split; [now left | discriminate].
  - rewrite Hit. destruct (control_effects_silent cf Hcf) as [Hr Hh].
    unfold handled, received in *. cbn [omap list_omap].
    rewrite !omap_app, Hr, Hh. cbn [omap list_omap app].
    destruct Htail as
      [(rerr & -> & Hret & ->)
      | (data & -> & Hread
         & [-> | [(downstream & werr & Hret & ->) | (downstream & Hret & ->)]])];
      cbn [omap list_omap];
      (split; [reflexivity |]);
      first [ split; [now left | rewrite Hret; discriminate]
            | split; [right | intros _]; eauto ].
Qed.

(** X10: Every message that was read is handed to the formatter, once and in the
    order of arrival, and nothing else is; the messages read are those of
    the leading turns. *)
Lemma uplinks_handled_in_order turns :
  handled (fst (readLoop turns)) = received (fst (readLoop turns))
  /\ received (fst (readLoop turns))
     `prefix_of` omap (fun t => match read t with
                                | Ok data => Some data
                                | Err _ => None
                                end) turns.
Proof.
  induction turns as [| t rest [IHeq IHpre]]; [split; reflexivity |].
  rewrite readLoop_cons. cbn [omap list_omap].
  destruct (iteration_received t) as (Heq & Hsome & Hpass).
  destruct (snd (iteration t)) as [err |]; cbn [fst].
  - split; [exact Heq |].
    destruct Hsome as [-> | (data & -> & ->)];
      [apply prefix_nil | apply prefix_cons, prefix_nil].
  - destruct (Hpass eq_refl) as (data & Hread & Hrec).
    unfold handled, received in *. rewrite !omap_app, Heq, IHeq.
    split; [reflexivity |].
    rewrite Hrec, Hread. cbn [app]. apply prefix_cons, IHpre.
Qed.

Ltac tail_forms Htail :=
  destruct Htail as
    [(rerr & -> & Hret & ->)
    | (rdata & -> & Hread
       & [-> | [(downstream & werr & Hret & ->) | (downstream & Hret & ->)]])].

Ltac short_lookup k H :=
  cbn in H;
  first [ discriminate H
        | destruct k as [| k];
          [cbn in H; try discriminate H | short_lookup k H] ].

(** In one turn a disconnect is the last effect, with the turn's error. *)
Lemma iteration_disconnect_last t i err :
  fst (iteration t) !! i = Some (Disconnect err) ->
  S i = length (fst (iteration t)) /\ snd (iteration t) = Some err.
Proof.
  intros H.
  destruct (iteration_shape t)
    as [(err' & Hit) | (cf & answer & tail & Hit & Hcf & Htail)].
  - rewrite Hit in H |- *. cbn [fst snd] in H |- *. short_lookup i H.
    injection H as <-. split; reflexivity.
  - rewrite Hit in H |- *.
    apply lookup_turn in H
      as [[-> [=]] | [(k & -> & Hk) | [[-> [=]] | (k & -> & Hk)]]].
    + exfalso. pose proof (Forall_lookup_1 _ _ _ _ Hcf Hk) as Hc.
      discriminate Hc.
    + tail_forms Htail; short_lookup k Hk. injection Hk as <-.
      split; [| exact Hret].
      cbn [length]. rewrite length_app. cbn [length]. lia.
Qed.

(** X11: Inside the loop the connection is disconnected at most once, as the
    last effect, and with the error that the loop returns. *)
Lemma readLoop_disconnect_last turns i err :
  fst (readLoop turns) !! i = Some (Disconnect err) ->
  S i = length (fst (readLoop turns))
  /\ snd (readLoop turns) = Returned (Some err).
Proof.
  revert i. induction turns as [| t rest IH]; intros i H; [discriminate H |].
  rewrite readLoop_cons in H |- *.
  destruct (snd (iteration t)) as [err' |] eqn:Hsnd; cbn [fst snd] in H |- *.
  - destruct (iteration_disconnect_last t i err H) as [Hlen Herr].
    rewrite Herr in Hsnd. injection Hsnd as <-. split; [exact Hlen | reflexivity].
  - apply lookup_app_Some in H as [H | [Hlen H]].
    + destruct (iteration_disconnect_last t i err H) as [_ Herr].
      rewrite Herr in Hsnd. discriminate Hsnd.
    + destruct (IH _ H) as [Hl Hout]. split; [| exact Hout].
      rewrite length_app. lia.
Qed.

Lemma readLoop_disconnect_last_witness :
  8%nat = length (fst (readLoop two_turns))
  /\ snd (readLoop two_turns) = Returned (Some (collaborator "rate limited")).
Proof.
  apply (readLoop_disconnect_last two_turns 7 (collaborator "rate limited")).
  reflexivity.
Defined.

Lemma iteration_effects t e :
  e ∈ fst (iteration t) -> read_loop_effect e = true.
Proof.
  destruct (iteration_shape t)
    as [(err & Hit) | (cf & answer & tail & Hit & Hcf & Htail)]; rewrite Hit.
  - cbn [fst]. rewrite !elem_of_cons, elem_of_nil.
    intuition (subst; reflexivity).
  - rewrite elem_of_cons, elem_of_app, elem_of_cons.
    intros [-> | [Hin | [-> | Hin]]]; try reflexivity.
    + rewrite Forall_forall in Hcf. specialize (Hcf e Hin).
      destruct e as [| | | | | | l msg | | | | | | | []];
        try discriminate Hcf; reflexivity.
    + tail_forms Htail; rewrite ?elem_of_cons, ?elem_of_nil in Hin;
        intuition (subst; reflexivity).
Qed.

(** The loop checks, reads, hands on, logs, writes pongs and text messages
    and disconnects; it makes no other call. *)
Lemma readLoop_effects turns e :
  e ∈ fst (readLoop turns) -> read_loop_effect e = true.
Proof.
  induction turns as [| t rest IH]; [intros H; inversion H |].
  rewrite readLoop_cons.
  destruct (snd (iteration t)); cbn [fst].
  - apply iteration_effects.
  - rewrite elem_of_app. intros [H | H]; [exact (iteration_effects t e H) | auto].
Qed.

End ReadLoopMore.
